(** * The frame-to-delegate association registry of
      xwalk_contents_io_thread_client.cc

    A shallow embedding of the registry [RfhToIoThreadClientMap], of the
    lifecycle observer [ClientMapEntryUpdater] and of the request-time
    handle [XWalkContentsIoThreadClient], followed by the properties the
    specification states about them. *)

From stdpp Require Import gmap strings list fin_maps.
From Stdlib Require Import ZArith.

Local Open Scope Z_scope.
#[local] Set Warnings "-clear-no-such-hyp".

(** ** JNI references *)

(** A non-null reference to an object of the managed runtime. *)
Definition jobject := positive.

(** [JavaRef<jobject>]: a strong reference, possibly null. *)
Definition JavaRef := option jobject.

(** [JavaObjectWeakGlobalRef]: a weak reference; [None] is the empty
    reference a default-constructed one holds. *)
Definition JavaObjectWeakGlobalRef := option jobject.

(** The part of the managed heap the code depends on: which objects the
    collector has not reclaimed yet. *)
Record JavaHeap := { is_alive : jobject -> bool }.

(** [JavaObjectWeakGlobalRef::get(env)]: a local strong reference, null
    when the reference is empty or its referent is gone. *)
Definition weak_get (env : JavaHeap) (w : JavaObjectWeakGlobalRef) : JavaRef :=
  match w with
  | Some o => if is_alive env o then Some o else None
  | None => None
  end.

(** ** Identity types *)

(** What the code reads off a [RenderFrameHost*]: the pointer itself (the
    key of the hosts set) and the three getters it calls on it. *)
Record RenderFrameHost := {
  rfh_ptr : N;
  GetProcessID : Z;
  GetRoutingID : Z;
  GetFrameTreeNodeId : Z
}.

Definition GetRenderFrameHostIdPair (rfh : RenderFrameHost) : Z * Z :=
  (GetProcessID rfh, GetRoutingID rfh).

(** ** Association records *)

Record IoThreadClientData := {
  pending_association : bool;
  io_thread_client : JavaObjectWeakGlobalRef
}.

(** The constructor [IoThreadClientData::IoThreadClientData()]. *)
Definition IoThreadClientData_new : IoThreadClientData :=
  {| pending_association := false; io_thread_client := None |}.

(** [HostsAndClientDataPair]: the set of hosts of a slot and its record. *)
Abbreviation HostsAndClientDataPair := (gset N * IoThreadClientData)%type.

(** ** The registry *)

Record RfhToIoThreadClientMap := {
  rfh_to_io_thread_client_ : gmap (Z * Z) IoThreadClientData;
  frame_tree_node_to_io_thread_client_ : gmap Z HostsAndClientDataPair
}.

(** The lazily created instance starts with two empty maps. *)
Definition g_instance_ : RfhToIoThreadClientMap :=
  {| rfh_to_io_thread_client_ := ∅;
     frame_tree_node_to_io_thread_client_ := ∅ |}.

(** [std::map::operator[]] on the frame-tree-node map: the entry at the
    key, value-initialised and inserted first when the key is new. *)
Definition ftn_index (k : Z) (m : gmap Z HostsAndClientDataPair)
  : HostsAndClientDataPair * gmap Z HostsAndClientDataPair :=
  match m !! k with
  | Some e => (e, m)
  | None => ((∅, IoThreadClientData_new), <[k := (∅, IoThreadClientData_new)]> m)
  end.

(** The hosts set of a slot, empty for a slot without entry. *)
Definition hosts_of (n : Z) (r : RfhToIoThreadClientMap) : gset N :=
  match frame_tree_node_to_io_thread_client_ r !! n with
  | Some e => fst e
  | None => ∅
  end.

(** [Set(pair<int, int> rfh_id, client)] *)
Definition Set_rfh_id (rfh_id : Z * Z) (client : IoThreadClientData)
    (r : RfhToIoThreadClientMap) : RfhToIoThreadClientMap :=
  {| rfh_to_io_thread_client_ := <[rfh_id := client]> (rfh_to_io_thread_client_ r);
     frame_tree_node_to_io_thread_client_ := frame_tree_node_to_io_thread_client_ r |}.

(** [Get(pair<int, int> rfh_id, IoThreadClientData* client)]: [None] is
    the [false] return, [Some] the record copied out with [true]. *)
Definition Get_rfh_id (rfh_id : Z * Z) (r : RfhToIoThreadClientMap)
  : option IoThreadClientData :=
  rfh_to_io_thread_client_ r !! rfh_id.

(** [Get(int frame_tree_node_id, IoThreadClientData* client)] *)
Definition Get_frame_tree_node_id (frame_tree_node_id : Z)
    (r : RfhToIoThreadClientMap) : option IoThreadClientData :=
  match frame_tree_node_to_io_thread_client_ r !! frame_tree_node_id with
  | Some current_entry => Some (snd current_entry)
  | None => None
  end.

(** [Set(RenderFrameHost* rfh, client)] *)
Definition Set_rfh (rfh : RenderFrameHost) (client : IoThreadClientData)
    (r : RfhToIoThreadClientMap) : RfhToIoThreadClientMap :=
  let frame_tree_node_id := GetFrameTreeNodeId rfh in
  let rfh_id := GetRenderFrameHostIdPair rfh in
  let '(current_entry, m) :=
    ftn_index frame_tree_node_id (frame_tree_node_to_io_thread_client_ r) in
  let current_entry := (fst current_entry, client) in
  let current_entry := ({[rfh_ptr rfh]} ∪ fst current_entry, snd current_entry) in
  {| rfh_to_io_thread_client_ := <[rfh_id := client]> (rfh_to_io_thread_client_ r);
     frame_tree_node_to_io_thread_client_ := <[frame_tree_node_id := current_entry]> m |}.

(** [Erase(RenderFrameHost* rfh)].  The boolean is the condition of
    [DCHECK(num_erased == 1)]; the registry is the one the function leaves
    when it runs to its end. *)
Definition Erase (rfh : RenderFrameHost) (r : RfhToIoThreadClientMap)
  : RfhToIoThreadClientMap * bool :=
  let frame_tree_node_id := GetFrameTreeNodeId rfh in
  let rfh_id := GetRenderFrameHostIdPair rfh in
  let '(current_entry, m) :=
    ftn_index frame_tree_node_id (frame_tree_node_to_io_thread_client_ r) in
  let num_erased := if decide (rfh_ptr rfh ∈ fst current_entry) then 1 else 0 in
  let current_entry := (fst current_entry ∖ {[rfh_ptr rfh]}, snd current_entry) in
  let m := <[frame_tree_node_id := current_entry]> m in
  let m := if decide (fst current_entry = ∅)
           then delete frame_tree_node_id m else m in
  ({| rfh_to_io_thread_client_ := delete rfh_id (rfh_to_io_thread_client_ r);
      frame_tree_node_to_io_thread_client_ := m |},
   bool_decide (num_erased = 1)).

(** ** The lifecycle observer *)

(** A [WebContents*], as far as the code looks at it: its main frame,
    which may be null. *)
Record WebContents := { GetMainFrame : option RenderFrameHost }.

Record ClientMapEntryUpdater := {
  web_contents : WebContents;
  jdelegate_ : JavaObjectWeakGlobalRef
}.

(** [ClientMapEntryUpdater::RenderFrameCreated] *)
Definition RenderFrameCreated (this : ClientMapEntryUpdater)
    (rfh : RenderFrameHost) (r : RfhToIoThreadClientMap) : RfhToIoThreadClientMap :=
  let client_data := IoThreadClientData_new in
  let client_data := {| pending_association := pending_association client_data;
                        io_thread_client := jdelegate_ this |} in
  let client_data := {| pending_association := false;
                        io_thread_client := io_thread_client client_data |} in
  Set_rfh rfh client_data r.

(** [ClientMapEntryUpdater::RenderFrameDeleted] *)
Definition RenderFrameDeleted (this : ClientMapEntryUpdater)
    (rfh : RenderFrameHost) (r : RfhToIoThreadClientMap)
  : RfhToIoThreadClientMap * bool :=
  Erase rfh r.

(** The constructor of [ClientMapEntryUpdater]: the new observer, the
    registry it leaves and the condition of [DCHECK(jdelegate)].  A weak
    reference made from a null reference is empty.  The contents pointer
    is one that can be dereferenced, as the constructor does right after
    [DCHECK(web_contents)].  [WebContentsDestroyed] deletes the observer
    and does not touch the registry. *)
Definition ClientMapEntryUpdater_new (wc : WebContents) (jdelegate : JavaRef)
    (r : RfhToIoThreadClientMap)
  : ClientMapEntryUpdater * RfhToIoThreadClientMap * bool :=
  let this := {| web_contents := wc; jdelegate_ := jdelegate |} in
  let r := match GetMainFrame wc with
           | Some main_frame => RenderFrameCreated this main_frame r
           | None => r
           end in
  (this, r, bool_decide (is_Some jdelegate)).

(** ** The static entry points of [XWalkContentsIoThreadClient] *)

(** The request-time handle. *)
Record XWalkContentsIoThreadClient := {
  pending_association_ : bool;
  java_object_ : JavaRef
}.

Definition PendingAssociation (this : XWalkContentsIoThreadClient) : bool :=
  pending_association_ this.

(** The body both overloads of [FromID] share after their lookup: the
    handle, and the condition of
    [DCHECK(!client_data.pending_association || java_delegate.is_null())]. *)
Definition FromID_found (env : JavaHeap) (client_data : IoThreadClientData)
  : XWalkContentsIoThreadClient * bool :=
  let java_delegate := weak_get env (io_thread_client client_data) in
  ({| pending_association_ := pending_association client_data;
      java_object_ := java_delegate |},
   negb (pending_association client_data) || bool_decide (java_delegate = None)).

(** [FromID(int render_process_id, int render_frame_id)]: [None] is the
    null handle. *)
Definition FromID (env : JavaHeap) (render_process_id render_frame_id : Z)
    (r : RfhToIoThreadClientMap) : option (XWalkContentsIoThreadClient * bool) :=
  let rfh_id := (render_process_id, render_frame_id) in
  match Get_rfh_id rfh_id r with
  | None => None
  | Some client_data => Some (FromID_found env client_data)
  end.

(** [FromID(int frame_tree_node_id)] *)
Definition FromID_frame_tree_node_id (env : JavaHeap) (frame_tree_node_id : Z)
    (r : RfhToIoThreadClientMap) : option (XWalkContentsIoThreadClient * bool) :=
  match Get_frame_tree_node_id frame_tree_node_id r with
  | None => None
  | Some client_data => Some (FromID_found env client_data)
  end.

(** [SubFrameCreated]: the boolean is [false] when [NOTREACHED()] was
    reached. *)
Definition SubFrameCreated (render_process_id parent_render_frame_id
    child_render_frame_id : Z) (r : RfhToIoThreadClientMap)
  : RfhToIoThreadClientMap * bool :=
  let parent_rfh_id := (render_process_id, parent_render_frame_id) in
  let child_rfh_id := (render_process_id, child_render_frame_id) in
  match Get_rfh_id parent_rfh_id r with
  | None => (r, false)
  | Some client_data => (Set_rfh_id child_rfh_id client_data r, true)
  end.

(** [RegisterPendingContents]: the main frame is dereferenced unchecked,
    so there is a result only when the contents has one. *)
Definition RegisterPendingContents (wc : WebContents)
    (r : RfhToIoThreadClientMap) : option RfhToIoThreadClientMap :=
  let client_data := IoThreadClientData_new in
  let client_data := {| pending_association := true;
                        io_thread_client := io_thread_client client_data |} in
  match GetMainFrame wc with
  | Some main_frame =>
      Some (Set_rfh_id (GetRenderFrameHostIdPair main_frame) client_data r)
  | None => None
  end.

(** [Associate]: the observer it allocates, the registry and the
    condition of the constructor's [DCHECK]. *)
Definition Associate (wc : WebContents) (jclient : JavaRef)
    (r : RfhToIoThreadClientMap)
  : ClientMapEntryUpdater * RfhToIoThreadClientMap * bool :=
  ClientMapEntryUpdater_new wc jclient r.

(** ** Requests and responses, as the handle reads them *)

Definition HttpRequestHeaders : Type := list (string * string).

(** [content::ResourceType], an enumeration of the engine given by its
    integer value; the code only compares it with [kMainFrame]. *)
Definition ResourceType := Z.
Definition kMainFrame : ResourceType := 0.

Record ResourceRequestInfo := {
  GetResourceType : ResourceType;
  HasUserGesture : bool
}.

Record URLRequest := {
  url_spec : string;
  method : string;
  GetFullRequestHeaders : option HttpRequestHeaders;
  extra_request_headers : HttpRequestHeaders;
  ForRequest : option ResourceRequestInfo
}.

Record HttpResponseHeaders := {
  EnumerateHeaderLines : list (string * string);
  GetMimeTypeAndCharset : string * string;
  response_code : Z;
  GetStatusText : string
}.

(** [XWalkWebResourceResponseImpl(ret)] wraps the non-null object the
    delegate returned. *)
Record XWalkWebResourceResponseImpl := { java_response : jobject }.

(** The calls into the managed runtime, with their marshalled arguments,
    in the order of the parameters of the generated JNI stubs. *)
Inductive JniCall :=
| Call_getCacheMode (obj : jobject)
| Call_shouldInterceptRequest (obj : jobject) (url : string)
    (is_main_frame has_user_gesture : bool) (method : string)
    (header_names header_values : list string)
| Call_shouldBlockContentUrls (obj : jobject)
| Call_shouldBlockFileUrls (obj : jobject)
| Call_shouldBlockNetworkLoads (obj : jobject)
| Call_shouldAcceptThirdPartyCookies (obj : jobject)
| Call_onReceivedResponseHeaders (obj : jobject) (url : string)
    (is_main_frame has_user_gesture : bool) (method : string)
    (header_names header_values : list string)
    (mime_type encoding : string) (status_code : Z) (reason : string)
    (response_header_names response_header_values : list string).

(** What the application's delegate objects answer. *)
Record JavaClient := {
  Java_getCacheMode : jobject -> Z;
  Java_shouldInterceptRequest :
    jobject -> string -> bool -> bool -> string -> list string -> list string -> JavaRef;
  Java_shouldBlockContentUrls : jobject -> bool;
  Java_shouldBlockFileUrls : jobject -> bool;
  Java_shouldBlockNetworkLoads : jobject -> bool;
  Java_shouldAcceptThirdPartyCookies : jobject -> bool
}.

(** [CacheMode] is declared in the header of the class, which is not part
    of the sources at hand: it is an enumeration the delegate's integer
    answer is cast to, and its constant [LOAD_DEFAULT] is a parameter of
    the queries below. *)
Definition CacheMode := Z.

(** The [info && ...] tests on the request's [ResourceRequestInfo]. *)
Definition request_is_main_frame (request : URLRequest) : bool :=
  match ForRequest request with
  | Some info => bool_decide (GetResourceType info = kMainFrame)
  | None => false
  end.

Definition request_has_user_gesture (request : URLRequest) : bool :=
  match ForRequest request with
  | Some info => HasUserGesture info
  | None => false
  end.

(** The header loop: the full request headers, or the extra ones when
    there are none, split into names and values. *)
Definition request_headers (request : URLRequest) : HttpRequestHeaders :=
  match GetFullRequestHeaders request with
  | Some headers => headers
  | None => extra_request_headers request
  end.

Section Queries.

Variable LOAD_DEFAULT : CacheMode.
Variable java : JavaClient.

(** Every query gives its result and the calls it made into the
    managed runtime. *)

Definition GetCacheMode (this : XWalkContentsIoThreadClient)
  : CacheMode * list JniCall :=
  match java_object_ this with
  | None => (LOAD_DEFAULT, [])
  | Some obj => (Java_getCacheMode java obj, [Call_getCacheMode obj])
  end.

Definition ShouldInterceptRequest (this : XWalkContentsIoThreadClient)
    (location : string) (request : URLRequest)
  : option XWalkWebResourceResponseImpl * list JniCall :=
  match java_object_ this with
  | None => (None, [])
  | Some obj =>
      let is_main_frame := request_is_main_frame request in
      let has_user_gesture := request_has_user_gesture request in
      let headers := request_headers request in
      let headers_names := fst <$> headers in
      let headers_values := snd <$> headers in
      let ret := Java_shouldInterceptRequest java obj location is_main_frame
                   has_user_gesture (method request) headers_names headers_values in
      (match ret with
       | None => None
       | Some o => Some {| java_response := o |}
       end,
       [Call_shouldInterceptRequest obj location is_main_frame has_user_gesture
          (method request) headers_names headers_values])
  end.

Definition ShouldBlockContentUrls (this : XWalkContentsIoThreadClient)
  : bool * list JniCall :=
  match java_object_ this with
  | None => (false, [])
  | Some obj => (Java_shouldBlockContentUrls java obj, [Call_shouldBlockContentUrls obj])
  end.

Definition ShouldBlockFileUrls (this : XWalkContentsIoThreadClient)
  : bool * list JniCall :=
  match java_object_ this with
  | None => (false, [])
  | Some obj => (Java_shouldBlockFileUrls java obj, [Call_shouldBlockFileUrls obj])
  end.

Definition ShouldBlockNetworkLoads (this : XWalkContentsIoThreadClient)
  : bool * list JniCall :=
  match java_object_ this with
  | None => (false, [])
  | Some obj => (Java_shouldBlockNetworkLoads java obj, [Call_shouldBlockNetworkLoads obj])
  end.

Definition ShouldAcceptThirdPartyCookies (this : XWalkContentsIoThreadClient)
  : bool * list JniCall :=
  match java_object_ this with
  | None => (false, [])
  | Some obj =>
      (Java_shouldAcceptThirdPartyCookies java obj,
       [Call_shouldAcceptThirdPartyCookies obj])
  end.

Definition OnReceivedResponseHeaders (this : XWalkContentsIoThreadClient)
    (request : URLRequest) (response_headers : HttpResponseHeaders)
  : list JniCall :=
  match java_object_ this with
  | None => []
  | Some obj =>
      let headers := request_headers request in
      let lines := EnumerateHeaderLines response_headers in
      let '(mime_type, encoding) := GetMimeTypeAndCharset response_headers in
      [Call_onReceivedResponseHeaders obj (url_spec request)
         (request_is_main_frame request) (request_has_user_gesture request)
         (method request) (fst <$> headers) (snd <$> headers)
         mime_type encoding (response_code response_headers)
         (GetStatusText response_headers) (fst <$> lines) (snd <$> lines)]
  end.

End Queries.

(** ** Histories of registry operations *)

(** The operations that reach the registry from outside the file: the
    three static entry points that write, and the two callbacks the engine
    delivers to an observer. *)
Inductive Event :=
| Ev_RegisterPendingContents (wc : WebContents)
| Ev_Associate (wc : WebContents) (jclient : JavaRef)
| Ev_RenderFrameCreated (this : ClientMapEntryUpdater) (rfh : RenderFrameHost)
| Ev_RenderFrameDeleted (this : ClientMapEntryUpdater) (rfh : RenderFrameHost)
| Ev_SubFrameCreated (render_process_id parent_render_frame_id
    child_render_frame_id : Z).

(** The registry an event leaves, with debug assertions compiled out
    (a failed assertion does not stop the function). *)
Definition apply_event (e : Event) (r : RfhToIoThreadClientMap)
  : option RfhToIoThreadClientMap :=
  match e with
  | Ev_RegisterPendingContents wc => RegisterPendingContents wc r
  | Ev_Associate wc jclient => Some (snd (fst (Associate wc jclient r)))
  | Ev_RenderFrameCreated this rfh => Some (RenderFrameCreated this rfh r)
  | Ev_RenderFrameDeleted this rfh => Some (fst (RenderFrameDeleted this rfh r))
  | Ev_SubFrameCreated p parent child => Some (fst (SubFrameCreated p parent child r))
  end.

Fixpoint run_events (es : list Event) (r : RfhToIoThreadClientMap)
  : option RfhToIoThreadClientMap :=
  match es with
  | [] => Some r
  | e :: es' =>
      match apply_event e r with
      | Some r' => run_events es' r'
      | None => None
      end
  end.

(** A registry is reachable when some history leads to it from the
    freshly created instance. *)
Definition reachable (r : RfhToIoThreadClientMap) : Prop :=
  ∃ es, run_events es g_instance_ = Some r.

(** Whether an event is an association or a frame creation that writes
    slot [n] of the frame-tree-node map. *)
Definition creates_frame_in (n : Z) (e : Event) : bool :=
  match e with
  | Ev_Associate wc _ =>
      match GetMainFrame wc with
      | Some main_frame => bool_decide (GetFrameTreeNodeId main_frame = n)
      | None => false
      end
  | Ev_RenderFrameCreated _ rfh => bool_decide (GetFrameTreeNodeId rfh = n)
  | _ => false
  end.

(** The invariant of the records: a pending record has an empty delegate
    reference. *)
Definition record_ok (d : IoThreadClientData) : Prop :=
  pending_association d = true → io_thread_client d = None.

Definition registry_ok (r : RfhToIoThreadClientMap) : Prop :=
  (∀ rfh_id d, rfh_to_io_thread_client_ r !! rfh_id = Some d → record_ok d) ∧
  (∀ n e, frame_tree_node_to_io_thread_client_ r !! n = Some e → record_ok (snd e)).

(** Adding frames with [Set], then erasing frames, in the given orders. *)
Definition Set_all (adds : list (RenderFrameHost * IoThreadClientData))
    (r : RfhToIoThreadClientMap) : RfhToIoThreadClientMap :=
  foldl (λ r a, Set_rfh (fst a) (snd a) r) r adds.

Definition Erase_all (dels : list RenderFrameHost)
    (r : RfhToIoThreadClientMap) : RfhToIoThreadClientMap :=
  foldl (λ r f, fst (Erase f r)) r dels.

(** Whether every [DCHECK] of a run of erasures holds. *)
Fixpoint Erase_all_checks (dels : list RenderFrameHost)
    (r : RfhToIoThreadClientMap) : bool :=
  match dels with
  | [] => true
  | f :: dels' => snd (Erase f r) && Erase_all_checks dels' (fst (Erase f r))
  end.

(** ** The registry under concurrent callers

    Every method of the registry opens with [base::AutoLock
    lock(map_lock_)], which holds the lock to the end of the body.  The
    statements of the bodies that touch the lock or a map are the
    instructions below; threads of callers are interleaved instruction by
    instruction. *)

Inductive Instr :=
| Acquire
| Release
| Rfh_assign (rfh_id : Z * Z) (client : IoThreadClientData)
| Rfh_find (rfh_id : Z * Z)
| Rfh_erase (rfh_id : Z * Z)
| Ftn_find (frame_tree_node_id : Z)
| Ftn_assign_insert (rfh : RenderFrameHost) (client : IoThreadClientData)
| Ftn_erase (rfh : RenderFrameHost).

Inductive Call :=
| Call_Set_rfh_id (rfh_id : Z * Z) (client : IoThreadClientData)
| Call_Get_rfh_id (rfh_id : Z * Z)
| Call_Get_frame_tree_node_id (frame_tree_node_id : Z)
| Call_Set_rfh (rfh : RenderFrameHost) (client : IoThreadClientData)
| Call_Erase (rfh : RenderFrameHost).

(** The body of each method, statement by statement. *)
Definition body (c : Call) : list Instr :=
  match c with
  | Call_Set_rfh_id rfh_id client => [Acquire; Rfh_assign rfh_id client; Release]
  | Call_Get_rfh_id rfh_id => [Acquire; Rfh_find rfh_id; Release]
  | Call_Get_frame_tree_node_id n => [Acquire; Ftn_find n; Release]
  | Call_Set_rfh rfh client =>
      [Acquire; Ftn_assign_insert rfh client;
       Rfh_assign (GetRenderFrameHostIdPair rfh) client; Release]
  | Call_Erase rfh =>
      [Acquire; Ftn_erase rfh; Rfh_erase (GetRenderFrameHostIdPair rfh); Release]
  end.

(** What one instruction does to the two maps. *)
Definition exec_instr (i : Instr) (r : RfhToIoThreadClientMap)
  : RfhToIoThreadClientMap :=
  match i with
  | Acquire | Release | Rfh_find _ | Ftn_find _ => r
  | Rfh_assign rfh_id client =>
      {| rfh_to_io_thread_client_ := <[rfh_id := client]> (rfh_to_io_thread_client_ r);
         frame_tree_node_to_io_thread_client_ := frame_tree_node_to_io_thread_client_ r |}
  | Rfh_erase rfh_id =>
      {| rfh_to_io_thread_client_ := delete rfh_id (rfh_to_io_thread_client_ r);
         frame_tree_node_to_io_thread_client_ := frame_tree_node_to_io_thread_client_ r |}
  | Ftn_assign_insert rfh client =>
      let '(current_entry, m) :=
        ftn_index (GetFrameTreeNodeId rfh) (frame_tree_node_to_io_thread_client_ r) in
      {| rfh_to_io_thread_client_ := rfh_to_io_thread_client_ r;
         frame_tree_node_to_io_thread_client_ :=
           <[GetFrameTreeNodeId rfh := ({[rfh_ptr rfh]} ∪ fst current_entry, client)]> m |}
  | Ftn_erase rfh =>
      let '(current_entry, m) :=
        ftn_index (GetFrameTreeNodeId rfh) (frame_tree_node_to_io_thread_client_ r) in
      let hosts := fst current_entry ∖ {[rfh_ptr rfh]} in
      let m := <[GetFrameTreeNodeId rfh := (hosts, snd current_entry)]> m in
      {| rfh_to_io_thread_client_ := rfh_to_io_thread_client_ r;
         frame_tree_node_to_io_thread_client_ :=
           if decide (hosts = ∅) then delete (GetFrameTreeNodeId rfh) m else m |}
  end.

(** What a read instruction copies out. *)
Definition read_instr (i : Instr) (r : RfhToIoThreadClientMap)
  : option (option IoThreadClientData) :=
  match i with
  | Rfh_find rfh_id => Some (Get_rfh_id rfh_id r)
  | Ftn_find n => Some (Get_frame_tree_node_id n r)
  | _ => None
  end.

Definition is_read (i : Instr) : bool :=
  match i with
  | Rfh_find _ | Ftn_find _ => true
  | _ => false
  end.

(** A whole method run on its own. *)
Definition run_call (c : Call) (r : RfhToIoThreadClientMap) : RfhToIoThreadClientMap :=
  match c with
  | Call_Set_rfh_id rfh_id client => Set_rfh_id rfh_id client r
  | Call_Get_rfh_id _ | Call_Get_frame_tree_node_id _ => r
  | Call_Set_rfh rfh client => Set_rfh rfh client r
  | Call_Erase rfh => fst (Erase rfh r)
  end.

Definition run_calls (cs : list Call) (r : RfhToIoThreadClientMap)
  : RfhToIoThreadClientMap :=
  foldl (λ r c, run_call c r) r cs.

(** A caller thread: the rest of the method it is in, and the calls it
    has yet to make. *)
Record Thread := {
  current : list Instr;
  todo : list Call
}.

Record Config := {
  registry : RfhToIoThreadClientMap;
  map_lock_ : option nat;
  threads : list Thread
}.

Definition init_config (r : RfhToIoThreadClientMap) (progs : list (list Call)) : Config :=
  {| registry := r; map_lock_ := None;
     threads := (λ p, {| current := []; todo := p |}) <$> progs |}.

(** One step of thread [i]. [Acquire] waits for the lock to be free; the
    other instructions run whenever the thread is scheduled. *)
Inductive step : Config -> nat -> Config -> Prop :=
| step_call cfg i c cs :
    threads cfg !! i = Some {| current := []; todo := c :: cs |} ->
    step cfg i
      {| registry := registry cfg; map_lock_ := map_lock_ cfg;
         threads := <[i := {| current := body c; todo := cs |}]> (threads cfg) |}
| step_acquire cfg i k cs :
    threads cfg !! i = Some {| current := Acquire :: k; todo := cs |} ->
    map_lock_ cfg = None ->
    step cfg i
      {| registry := registry cfg; map_lock_ := Some i;
         threads := <[i := {| current := k; todo := cs |}]> (threads cfg) |}
| step_release cfg i k cs :
    threads cfg !! i = Some {| current := Release :: k; todo := cs |} ->
    map_lock_ cfg = Some i ->
    step cfg i
      {| registry := registry cfg; map_lock_ := None;
         threads := <[i := {| current := k; todo := cs |}]> (threads cfg) |}
| step_instr cfg i ins k cs :
    threads cfg !! i = Some {| current := ins :: k; todo := cs |} ->
    ins ≠ Acquire -> ins ≠ Release ->
    step cfg i
      {| registry := exec_instr ins (registry cfg); map_lock_ := map_lock_ cfg;
         threads := <[i := {| current := k; todo := cs |}]> (threads cfg) |}.

Inductive steps : Config -> Config -> Prop :=
| steps_refl cfg : steps cfg cfg
| steps_step cfg1 cfg2 cfg3 i :
    steps cfg1 cfg2 -> step cfg2 i cfg3 -> steps cfg1 cfg3.

(** A thread is outside the methods' critical sections when it is between
    two calls or has not yet taken the lock of the call it entered. *)
Definition outside (t : Thread) : Prop :=
  current t = [] ∨ ∃ c, current t = body c.

(** The same step as a function of the scheduled thread: [None] when the
    thread cannot move (it does not exist, has nothing left to do, or
    waits for the lock). *)
Definition step_fun (i : nat) (cfg : Config) : option Config :=
  match threads cfg !! i with
  | None => None
  | Some t =>
      match current t with
      | [] =>
          match todo t with
          | [] => None
          | c :: cs =>
              Some {| registry := registry cfg; map_lock_ := map_lock_ cfg;
                      threads := <[i := {| current := body c; todo := cs |}]> (threads cfg) |}
          end
      | Acquire :: k =>
          match map_lock_ cfg with
          | None =>
              Some {| registry := registry cfg; map_lock_ := Some i;
                      threads := <[i := {| current := k; todo := todo t |}]> (threads cfg) |}
          | Some _ => None
          end
      | Release :: k =>
          if decide (map_lock_ cfg = Some i) then
            Some {| registry := registry cfg; map_lock_ := None;
                    threads := <[i := {| current := k; todo := todo t |}]> (threads cfg) |}
          else None
      | ins :: k =>
          Some {| registry := exec_instr ins (registry cfg); map_lock_ := map_lock_ cfg;
                  threads := <[i := {| current := k; todo := todo t |}]> (threads cfg) |}
      end
  end.

(** Running a schedule: the threads move in the order given. *)
Fixpoint run_schedule (schedule : list nat) (cfg : Config) : option Config :=
  match schedule with
  | [] => Some cfg
  | i :: schedule' =>
      match step_fun i cfg with
      | Some cfg' => run_schedule schedule' cfg'
      | None => None
      end
  end.

(** The instructions of a method run one after the other. *)
Definition exec_instrs (instrs : list Instr) (r : RfhToIoThreadClientMap)
  : RfhToIoThreadClientMap :=
  foldl (λ r i, exec_instr i r) r instrs.

(** What holds of a configuration reached from [init_config r0 progs]:
    the lock is free, every thread is outside the critical sections and
    the registry is the outcome of the whole calls [done]; or one thread
    holds the lock, has run the instructions [pre] of its call on that
    outcome and has the rest of the body before it, while every other
    thread is outside. *)
Definition config_inv (r0 : RfhToIoThreadClientMap) (cfg : Config) : Prop :=
  ∃ done : list Call,
    match map_lock_ cfg with
    | None =>
        registry cfg = run_calls done r0 ∧
        ∀ j t, threads cfg !! j = Some t → outside t
    | Some h =>
        (∃ t c pre,
           threads cfg !! h = Some t ∧
           body c = Acquire :: pre ++ current t ∧
           current t ≠ [] ∧
           registry cfg = exec_instrs pre (run_calls done r0)) ∧
        ∀ j t, j ≠ h → threads cfg !! j = Some t → outside t
    end.

(** ** The marshalled request *)

(** [struct WebResourceRequest], which the response-headers notification
    builds from the request before it calls the delegate. *)
Record WebResourceRequest := {
  jstring_url : string;
  is_main_frame : bool;
  has_user_gesture : bool;
  jstring_method : string;
  jstringArray_header_names : list string;
  jstringArray_header_values : list string
}.

(** The constructor [WebResourceRequest(env, request)]. *)
Definition WebResourceRequest_new (request : URLRequest) : WebResourceRequest :=
  let headers := match GetFullRequestHeaders request with
                 | Some headers => headers
                 | None => extra_request_headers request
                 end in
  {| jstring_url := url_spec request;
     is_main_frame :=
       match ForRequest request with
       | Some info => bool_decide (GetResourceType info = kMainFrame)
       | None => false
       end;
     has_user_gesture :=
       match ForRequest request with
       | Some info => HasUserGesture info
       | None => false
       end;
     jstring_method := method request;
     jstringArray_header_names := fst <$> headers;
     jstringArray_header_values := snd <$> headers |}.

(** ** Well-formed slots *)

(** A slot entry with at least one host and a record that is not
    pending. *)
Definition slot_ok (e : HostsAndClientDataPair) : Prop :=
  fst e ≠ ∅ ∧ pending_association (snd e) = false.

Definition slots_ok (r : RfhToIoThreadClientMap) : Prop :=
  ∀ n e, frame_tree_node_to_io_thread_client_ r !! n = Some e → slot_ok e.

(** ** Work left in a configuration *)

(** The steps a call takes: one to enter the method and one for each
    instruction of its body. *)
Definition call_work (c : Call) : nat := S (length (body c)).

Definition thread_work (t : Thread) : nat :=
  (length (current t) + sum_list_with call_work (todo t))%nat.

Definition work (cfg : Config) : nat := sum_list_with thread_work (threads cfg).

(** A thread that has returned from its last call. *)
Definition finished (t : Thread) : Prop := current t = [] ∧ todo t = [].

(** ** Calls entered and not yet returned *)

(** [l] is what thread [t] has yet to return from: its calls to come
    and, before them, the call it is in, which has either not passed its
    [Acquire] or holds the lock after the instructions [pre] of the body,
    run on the outcome of the calls [done]. *)
Definition thread_calls (r0 : RfhToIoThreadClientMap) (done : list Call)
    (cfg : Config) (j : nat) (t : Thread) (l : list Call) : Prop :=
  (current t = [] ∧ l = todo t) ∨
  ∃ c, l = c :: todo t ∧
    (current t = body c ∨
     (map_lock_ cfg = Some j ∧
      ∃ pre, body c = Acquire :: pre ++ current t ∧ current t ≠ [] ∧
             registry cfg = exec_instrs pre (run_calls done r0))).

(** The calls returned so far, in the order of their [Release], and the
    calls still to return make up the calls of the programs. *)
Definition linear_inv (r0 : RfhToIoThreadClientMap) (progs : list (list Call))
    (cfg : Config) : Prop :=
  ∃ (done : list Call) (rem : list (list Call)),
    length rem = length (threads cfg) ∧
    (∀ j t, threads cfg !! j = Some t →
       ∃ l, rem !! j = Some l ∧ thread_calls r0 done cfg j t l) ∧
    (map_lock_ cfg = None → registry cfg = run_calls done r0) ∧
    (∀ h, map_lock_ cfg = Some h →
       ∃ t, threads cfg !! h = Some t ∧ current t ≠ [] ∧ ∀ c, current t ≠ body c) ∧
    done ++ concat rem ≡ₚ concat progs.

(** ** Callers that add and erase by frame *)

(** The calls of a caller that writes through the frame alone ([Set] and
    [Erase] by frame, and the two lookups) on frames of [frames]. *)
Definition call_by_frame (frames : list RenderFrameHost) (c : Call) : Prop :=
  match c with
  | Call_Set_rfh_id _ _ => False
  | Call_Set_rfh rfh _ | Call_Erase rfh => rfh ∈ frames
  | Call_Get_rfh_id _ | Call_Get_frame_tree_node_id _ => True
  end.

(** Live frames differ in their pointer and in their identity. *)
Definition distinct_frames (frames : list RenderFrameHost) : Prop :=
  ∀ f g, f ∈ frames → g ∈ frames →
    rfh_ptr f = rfh_ptr g ∨ GetRenderFrameHostIdPair f = GetRenderFrameHostIdPair g →
    f = g.

(** No frame of [frames] has its frame-identity entry without being a
    host of its slot. *)
Definition paired (frames : list RenderFrameHost) (r : RfhToIoThreadClientMap) : Prop :=
  ∀ f, f ∈ frames →
    is_Some (Get_rfh_id (GetRenderFrameHostIdPair f) r) →
    rfh_ptr f ∈ hosts_of (GetFrameTreeNodeId f) r.

(** * Properties *)

(** ** Elementary facts about the registry *)

(** Erasing a frame the registry does not know fails the assertion and
    leaves the fresh registry as it was: the entry [operator[]] creates
    is removed again. *)
Example Erase_unknown_frame :
  Erase {| rfh_ptr := 1; GetProcessID := 2; GetRoutingID := 3;
           GetFrameTreeNodeId := 4 |} g_instance_ = (g_instance_, false).
Proof. reflexivity. Qed.

(** A frame set and looked up by both keys, then erased. *)
Example Set_rfh_then_Erase :
  let f := {| rfh_ptr := 1; GetProcessID := 2; GetRoutingID := 3;
              GetFrameTreeNodeId := 4 |} in
  let d := {| pending_association := false; io_thread_client := Some 5%positive |} in
  Get_rfh_id (2, 3) (Set_rfh f d g_instance_) = Some d ∧
  Get_frame_tree_node_id 4 (Set_rfh f d g_instance_) = Some d ∧
  Erase f (Set_rfh f d g_instance_) = (g_instance_, true).
Proof. repeat split; reflexivity. Qed.

Lemma ftn_index_fst k (m : gmap Z HostsAndClientDataPair) :
  fst (ftn_index k m) = default (∅, IoThreadClientData_new) (m !! k).
Proof. unfold ftn_index. by destruct (m !! k). Qed.

Lemma ftn_index_insert k e (m : gmap Z HostsAndClientDataPair) :
  <[k := e]> (snd (ftn_index k m)) = <[k := e]> m.
Proof.
  unfold ftn_index. destruct (m !! k); [done|].
  cbn. by rewrite insert_insert_eq.
Qed.

Lemma Set_rfh_ftn_map rfh client r :
  frame_tree_node_to_io_thread_client_ (Set_rfh rfh client r) =
  <[GetFrameTreeNodeId rfh :=
      ({[rfh_ptr rfh]} ∪ hosts_of (GetFrameTreeNodeId rfh) r, client)]>
    (frame_tree_node_to_io_thread_client_ r).
Proof.
  unfold Set_rfh, hosts_of, ftn_index.
  destruct (frame_tree_node_to_io_thread_client_ r !! GetFrameTreeNodeId rfh)
    as [[hosts old]|]; cbn; [done|].
  by rewrite insert_insert_eq.
Qed.

Lemma Set_rfh_rfh_map rfh client r :
  rfh_to_io_thread_client_ (Set_rfh rfh client r) =
  <[GetRenderFrameHostIdPair rfh := client]> (rfh_to_io_thread_client_ r).
Proof.
  unfold Set_rfh.
  by destruct (ftn_index _ _).
Qed.

Lemma Erase_rfh_map rfh r :
  rfh_to_io_thread_client_ (fst (Erase rfh r)) =
  delete (GetRenderFrameHostIdPair rfh) (rfh_to_io_thread_client_ r).
Proof.
  unfold Erase.
  by destruct (ftn_index _ _).
Qed.

Lemma Erase_ftn_map rfh r :
  frame_tree_node_to_io_thread_client_ (fst (Erase rfh r)) =
  let n := GetFrameTreeNodeId rfh in
  let e := default (∅, IoThreadClientData_new)
             (frame_tree_node_to_io_thread_client_ r !! n) in
  if decide (fst e ∖ {[rfh_ptr rfh]} = ∅)
  then delete n (frame_tree_node_to_io_thread_client_ r)
  else <[n := (fst e ∖ {[rfh_ptr rfh]}, snd e)]> (frame_tree_node_to_io_thread_client_ r).
Proof.
  unfold Erase, ftn_index.
  destruct (frame_tree_node_to_io_thread_client_ r !! GetFrameTreeNodeId rfh)
    as [[hosts old]|] eqn:Hn; cbn.
  - case_decide; [by rewrite delete_insert_eq|done].
  - case_decide; [|by rewrite insert_insert_eq].
    by rewrite insert_insert_eq, delete_insert_eq.
Qed.

Lemma Erase_check rfh r :
  snd (Erase rfh r) = bool_decide (rfh_ptr rfh ∈ hosts_of (GetFrameTreeNodeId rfh) r).
Proof.
  unfold Erase, hosts_of, ftn_index.
  destruct (frame_tree_node_to_io_thread_client_ r !! GetFrameTreeNodeId rfh)
    as [[hosts old]|]; cbn.
  - case_decide.
    + by rewrite !bool_decide_eq_true_2.
    + by rewrite !bool_decide_eq_false_2.
  - rewrite decide_False by set_solver.
    by rewrite !bool_decide_eq_false_2 by set_solver.
Qed.

(** ** Adding and erasing the frames of one slot *)

Lemma Get_frame_tree_node_id_lookup n r :
  Get_frame_tree_node_id n r = snd <$> frame_tree_node_to_io_thread_client_ r !! n.
Proof. unfold Get_frame_tree_node_id. by destruct (_ !! n). Qed.

Lemma Set_all_snoc adds a r :
  Set_all (adds ++ [a]) r = Set_rfh (fst a) (snd a) (Set_all adds r).
Proof. unfold Set_all. by rewrite foldl_app. Qed.

(** After a non-empty run of [Set] on frames of slot [n], the slot holds
    the record written last and has gained the frames added. *)
Lemma Set_all_slot n adds a r :
  (∀ b, b ∈ adds ++ [a] → GetFrameTreeNodeId (fst b) = n) →
  frame_tree_node_to_io_thread_client_ (Set_all (adds ++ [a]) r) !! n =
  Some (hosts_of n r ∪ list_to_set (rfh_ptr <$> (adds ++ [a]).*1), snd a).
Proof.
  revert a. induction adds as [|b adds IH] using rev_ind; intros a Hn.
  - cbn. rewrite Set_rfh_ftn_map.
    rewrite (Hn a) by set_solver.
    rewrite lookup_insert_eq. f_equal. f_equal. set_solver.
  - rewrite Set_all_snoc, Set_rfh_ftn_map.
    rewrite (Hn a) by set_solver.
    rewrite lookup_insert_eq. f_equal. f_equal.
    unfold hosts_of at 1. rewrite IH by (intros; apply Hn; set_solver).
    cbn. rewrite !fmap_app, !list_to_set_app_L. cbn. set_solver.
Qed.

Lemma Erase_slot rfh r hosts client :
  frame_tree_node_to_io_thread_client_ r !! GetFrameTreeNodeId rfh = Some (hosts, client) →
  frame_tree_node_to_io_thread_client_ (fst (Erase rfh r)) !! GetFrameTreeNodeId rfh =
  if decide (hosts ∖ {[rfh_ptr rfh]} = ∅) then None
  else Some (hosts ∖ {[rfh_ptr rfh]}, client).
Proof.
  intros Hn. rewrite Erase_ftn_map. cbn. rewrite Hn. cbn.
  case_decide; [apply lookup_delete_eq | apply lookup_insert_eq].
Qed.

(** Erasing, one at a time, exactly the frames a slot holds: the slot
    answers with its record until the last frame goes, and every
    [DCHECK] holds on the way. *)
Lemma Erase_all_slot n dels : ∀ r client,
  dels ≠ [] →
  NoDup (rfh_ptr <$> dels) →
  (∀ f, f ∈ dels → GetFrameTreeNodeId f = n) →
  frame_tree_node_to_io_thread_client_ r !! n =
    Some (list_to_set (rfh_ptr <$> dels), client) →
  (∀ k, (k < length dels)%nat →
        Get_frame_tree_node_id n (Erase_all (take k dels) r) = Some client) ∧
  Get_frame_tree_node_id n (Erase_all dels r) = None ∧
  Erase_all_checks dels r = true.
Proof.
  induction dels as [|f dels IH]; intros r client Hne Hnd Hn Hslot; [done|].
  cbn in Hnd. apply NoDup_cons in Hnd as [Hf Hnd].
  assert (GetFrameTreeNodeId f = n) as Hfn by (apply Hn; set_solver).
  assert (snd (Erase f r) = true) as Hchk.
  { rewrite Erase_check, Hfn. unfold hosts_of. rewrite Hslot. cbn.
    apply bool_decide_eq_true_2. set_solver. }
  pose proof (Erase_slot f r _ client ltac:(rewrite Hfn; exact Hslot)) as He.
  rewrite Hfn in He.
  assert (list_to_set (rfh_ptr <$> f :: dels) ∖ {[rfh_ptr f]}
          = (list_to_set (rfh_ptr <$> dels) : gset N)) as Hset.
  { cbn. rewrite <- list_elem_of_In in Hf || idtac.
    assert (rfh_ptr f ∉ (list_to_set (rfh_ptr <$> dels) : gset N))
      by (rewrite elem_of_list_to_set; exact Hf).
    set_solver. }
  rewrite Hset in He.
  destruct dels as [|g dels].
  - cbn in He. rewrite decide_True in He by done.
    split; [|split].
    + intros k Hk. cbn in Hk. assert (k = 0%nat) as -> by lia. cbn.
      rewrite Get_frame_tree_node_id_lookup, Hslot. done.
    + cbn. rewrite Get_frame_tree_node_id_lookup, He. done.
    + cbn. by rewrite Hchk.
  - rewrite decide_False in He by (cbn; set_solver).
    destruct (IH (fst (Erase f r)) client) as (IH1 & IH2 & IH3);
      [done | done | intros; apply Hn; set_solver | exact He |].
    split; [|split].
    + intros [|k] Hk.
      * cbn. rewrite Get_frame_tree_node_id_lookup, Hslot. done.
      * cbn [take]. change (Erase_all (f :: take k (g :: dels)) r)
          with (Erase_all (take k (g :: dels)) (fst (Erase f r))).
        apply IH1. cbn in Hk |- *. lia.
    + change (Erase_all (f :: g :: dels) r)
        with (Erase_all (g :: dels) (fst (Erase f r))). exact IH2.
    + cbn [Erase_all_checks]. rewrite Hchk. exact IH3.
Qed.

(** C1. Occupant-set accounting.  Let slot [n] have no entry, let the
    frames of [adds] (pairwise distinct, all of slot [n], [a] the last
    one) be added with [Set], and let them then be erased one at a time in
    any order [dels]: the lookup by [n] returns the record written last
    after every erasure but the last one, returns not-found after the
    last, and no [DCHECK] of [Erase] fails.  Moreover, when a frame [F] is
    the only host of its slot, then after [Erase] both the lookup by the
    identity of [F] and the lookup by its frame-tree-node id return
    not-found. *)
Theorem occupant_set_accounting
    (r : RfhToIoThreadClientMap) (n : Z)
    (adds : list (RenderFrameHost * IoThreadClientData))
    (a : RenderFrameHost * IoThreadClientData)
    (dels : list RenderFrameHost)
    (r' : RfhToIoThreadClientMap) (F : RenderFrameHost) :
  frame_tree_node_to_io_thread_client_ r !! n = None →
  last adds = Some a →
  (∀ b, b ∈ adds → GetFrameTreeNodeId (fst b) = n) →
  NoDup (rfh_ptr <$> adds.*1) →
  dels ≡ₚ adds.*1 →
  hosts_of (GetFrameTreeNodeId F) r' = {[rfh_ptr F]} →
  ((∀ k, (k < length dels)%nat →
      Get_frame_tree_node_id n (Erase_all (take k dels) (Set_all adds r)) = Some (snd a)) ∧
   Get_frame_tree_node_id n (Erase_all dels (Set_all adds r)) = None ∧
   Erase_all_checks dels (Set_all adds r) = true) ∧
  (Get_rfh_id (GetRenderFrameHostIdPair F) (fst (Erase F r')) = None ∧
   Get_frame_tree_node_id (GetFrameTreeNodeId F) (fst (Erase F r')) = None).
Proof.
  intros Hfree Hlast Hn Hnd Hperm HF. split.
  - apply last_Some in Hlast as [adds' ->].
    apply Erase_all_slot.
    + intros ->. apply Permutation_nil_l in Hperm.
      rewrite fmap_app in Hperm. by destruct (adds'.*1).
    + by rewrite Hperm.
    + intros f Hf. rewrite Hperm in Hf.
      apply list_elem_of_fmap in Hf as (b & -> & Hb). by apply Hn.
    + rewrite Set_all_slot by done.
      unfold hosts_of. rewrite Hfree, Hperm. f_equal. f_equal. set_solver.
  - split.
    + unfold Get_rfh_id. rewrite Erase_rfh_map. apply lookup_delete_eq.
    + rewrite Get_frame_tree_node_id_lookup, Erase_ftn_map. cbn.
      unfold hosts_of in HF.
      destruct (frame_tree_node_to_io_thread_client_ r' !! GetFrameTreeNodeId F)
        as [[hosts old]|] eqn:He; cbn in *.
      * subst hosts. rewrite decide_True by set_solver.
        by rewrite lookup_delete_eq.
      * rewrite decide_True by set_solver.
        by rewrite lookup_delete_eq.
Qed.

Lemma occupant_set_accounting_witness :
  let f1 := {| rfh_ptr := 1; GetProcessID := 3; GetRoutingID := 10;
               GetFrameTreeNodeId := 7 |} in
  let f2 := {| rfh_ptr := 2; GetProcessID := 4; GetRoutingID := 11;
               GetFrameTreeNodeId := 7 |} in
  let d1 := {| pending_association := false; io_thread_client := Some 5%positive |} in
  let d2 := {| pending_association := false; io_thread_client := Some 6%positive |} in
  let r := Set_all [(f1, d1); (f2, d2)] g_instance_ in
  Get_frame_tree_node_id 7 r = Some d2 ∧
  Get_frame_tree_node_id 7 (Erase_all [f2] r) = Some d2 ∧
  Get_frame_tree_node_id 7 (Erase_all [f2; f1] r) = None ∧
  Get_rfh_id (3, 10) (fst (Erase f1 (Set_rfh f1 d1 g_instance_))) = None.
Proof.
  intros f1 f2 d1 d2 r.
  destruct (occupant_set_accounting g_instance_ 7 [(f1, d1); (f2, d2)] (f2, d2)
              [f2; f1] (Set_rfh f1 d1 g_instance_) f1)
    as [(Hk & Hlast & _) [Hid _]].
  - reflexivity.
  - reflexivity.
  - intros b Hb. apply list_elem_of_In in Hb. cbn in Hb.
    destruct Hb as [<-|[<-|[]]]; reflexivity.
  - apply NoDup_ListNoDup. repeat constructor; cbn; intuition discriminate.
  - apply perm_swap.
  - reflexivity.
  - split; [exact (Hk 0%nat ltac:(cbn; lia))|].
    split; [exact (Hk 1%nat ltac:(cbn; lia))|].
    split; [exact Hlast | exact Hid].
Defined.

(** ** Writes by frame identity *)

Lemma Get_rfh_id_Set_rfh_id rfh_id client r :
  Get_rfh_id rfh_id (Set_rfh_id rfh_id client r) = Some client.
Proof. unfold Get_rfh_id, Set_rfh_id. cbn. apply lookup_insert_eq. Qed.

Lemma Get_frame_tree_node_id_Set_rfh_id n rfh_id client r :
  Get_frame_tree_node_id n (Set_rfh_id rfh_id client r) = Get_frame_tree_node_id n r.
Proof. reflexivity. Qed.

(** C8. Writing the same record under the same frame identity twice in
    succession leaves the registry as one write does: the two registries
    are equal, so both lookups answer alike on every key. *)
Theorem Set_rfh_id_idempotent (rfh_id : Z * Z) (client : IoThreadClientData)
    (r : RfhToIoThreadClientMap) :
  let once := Set_rfh_id rfh_id client r in
  let twice := Set_rfh_id rfh_id client once in
  twice = once ∧
  (∀ rfh_id', Get_rfh_id rfh_id' twice = Get_rfh_id rfh_id' once) ∧
  (∀ n, Get_frame_tree_node_id n twice = Get_frame_tree_node_id n once).
Proof.
  cbn. assert (Set_rfh_id rfh_id client (Set_rfh_id rfh_id client r)
               = Set_rfh_id rfh_id client r) as Heq.
  { unfold Set_rfh_id. cbn. by rewrite insert_insert_eq. }
  rewrite Heq. done.
Qed.

(** ** Sub-frame propagation *)

(** C4. When the registry has a record [R] for the parent identity, the
    sub-frame fast path writes [R] under the child identity, so the
    lookup by the child identity returns [R]; when it has none, the
    function reaches [NOTREACHED()] and leaves the registry as it was. *)
Theorem SubFrameCreated_parent_record (pid parentId childId : Z)
    (r : RfhToIoThreadClientMap) :
  (∀ R, Get_rfh_id (pid, parentId) r = Some R →
        snd (SubFrameCreated pid parentId childId r) = true ∧
        Get_rfh_id (pid, childId) (fst (SubFrameCreated pid parentId childId r)) = Some R) ∧
  (Get_rfh_id (pid, parentId) r = None →
        SubFrameCreated pid parentId childId r = (r, false)).
Proof.
  unfold SubFrameCreated. split.
  - intros R ->. cbn. split; [done|]. apply Get_rfh_id_Set_rfh_id.
  - by intros ->.
Qed.

Lemma SubFrameCreated_parent_record_witness :
  let R := {| pending_association := false; io_thread_client := Some 9%positive |} in
  let r := Set_rfh_id (1, 5) R g_instance_ in
  Get_rfh_id (1, 7) (fst (SubFrameCreated 1 5 7 r)) = Some R ∧
  SubFrameCreated 1 6 7 r = (r, false).
Proof.
  intros R r. split.
  - apply (proj1 (SubFrameCreated_parent_record 1 5 7 r) R). reflexivity.
  - apply (proj2 (SubFrameCreated_parent_record 1 6 7 r)). reflexivity.
Defined.

(** ** The invariant of the records *)

Lemma registry_ok_fresh : registry_ok g_instance_.
Proof. split; intros ? ? H; cbn in H; by rewrite lookup_empty in H. Qed.

Lemma Set_rfh_id_ok rfh_id client r :
  record_ok client → registry_ok r → registry_ok (Set_rfh_id rfh_id client r).
Proof.
  intros Hc [Hid Hn]. split; cbn; [|done].
  intros k d. rewrite lookup_insert. case_decide; [|by apply Hid].
  by intros [= <-].
Qed.

Lemma Set_rfh_ok rfh client r :
  record_ok client → registry_ok r → registry_ok (Set_rfh rfh client r).
Proof.
  intros Hc [Hid Hn]. split.
  - intros k d. rewrite Set_rfh_rfh_map, lookup_insert.
    case_decide; [|by apply Hid]. by intros [= <-].
  - intros k e. rewrite Set_rfh_ftn_map, lookup_insert.
    case_decide; [|by apply Hn]. by intros [= <-].
Qed.

Lemma Erase_ok rfh r : registry_ok r → registry_ok (fst (Erase rfh r)).
Proof.
  intros [Hid Hn]. split.
  - intros k d. rewrite Erase_rfh_map, lookup_delete.
    case_decide; [done|by apply Hid].
  - intros k e. rewrite Erase_ftn_map. cbn. case_decide.
    + rewrite lookup_delete. case_decide; [done|by apply Hn].
    + rewrite lookup_insert. case_decide; [|by apply Hn].
      intros [= <-]. cbn.
      destruct (frame_tree_node_to_io_thread_client_ r !! GetFrameTreeNodeId rfh)
        as [e|] eqn:He; cbn; [by eapply Hn|done].
Qed.

Lemma apply_event_ok e r r' :
  registry_ok r → apply_event e r = Some r' → registry_ok r'.
Proof.
  intros Hr. destruct e as [wc|wc jclient|this rfh|this rfh|p parent child]; cbn.
  - unfold RegisterPendingContents. destruct (GetMainFrame wc); [|done].
    intros [= <-]. by apply Set_rfh_id_ok.
  - intros [= <-]. destruct (GetMainFrame wc); [|done].
    by apply Set_rfh_ok.
  - intros [= <-]. by apply Set_rfh_ok.
  - intros [= <-]. by apply Erase_ok.
  - intros [= <-]. unfold SubFrameCreated.
    destruct (Get_rfh_id (p, parent) r) as [d|] eqn:Hd; cbn; [|done].
    apply Set_rfh_id_ok; [|done]. destruct Hr as [Hid _]. by eapply Hid.
Qed.

Lemma run_events_ok es : ∀ r r',
  registry_ok r → run_events es r = Some r' → registry_ok r'.
Proof.
  induction es as [|e es IH]; intros r r' Hr; cbn.
  - by intros [= <-].
  - destruct (apply_event e r) as [r1|] eqn:He; [|done].
    apply IH. by eapply apply_event_ok.
Qed.

Lemma reachable_ok r : reachable r → registry_ok r.
Proof. intros [es Hes]. eapply run_events_ok; [apply registry_ok_fresh|done]. Qed.

Lemma Get_rfh_id_ok r rfh_id d :
  registry_ok r → Get_rfh_id rfh_id r = Some d → record_ok d.
Proof. intros [Hid _]. apply Hid. Qed.

Lemma Get_frame_tree_node_id_ok r n d :
  registry_ok r → Get_frame_tree_node_id n r = Some d → record_ok d.
Proof.
  intros [_ Hn]. rewrite Get_frame_tree_node_id_lookup.
  destruct (_ !! n) as [e|] eqn:He; [|done]. intros [= <-]. by eapply Hn.
Qed.

Lemma FromID_found_check env d :
  record_ok d → snd (FromID_found env d) = true.
Proof.
  unfold FromID_found, record_ok. cbn.
  destruct (pending_association d); [|done].
  intros ->; done.
Qed.

(** C3. In every registry reached from the fresh instance by
    register-pending, associate, frame-created, frame-deleted and
    sub-frame-created events, a record found by either lookup whose
    pending flag is set has an empty delegate reference, so the assertion
    of both [FromID] overloads holds for every state of the managed heap.
    The converse fails: reachable registries hold records that are not
    pending and have no delegate, either because the reference is empty
    (an association with a null delegate, which only the assertion of the
    observer's constructor objects to) or because its referent is gone. *)
Theorem pending_record_has_no_delegate :
  (∀ r, reachable r →
     (∀ rfh_id d, Get_rfh_id rfh_id r = Some d →
        pending_association d = true → io_thread_client d = None) ∧
     (∀ n d, Get_frame_tree_node_id n r = Some d →
        pending_association d = true → io_thread_client d = None) ∧
     (∀ env pid rid h, FromID env pid rid r = Some h → snd h = true) ∧
     (∀ env n h, FromID_frame_tree_node_id env n r = Some h → snd h = true)) ∧
  (∃ r rfh_id d, reachable r ∧ Get_rfh_id rfh_id r = Some d ∧
     pending_association d = false ∧ io_thread_client d = None) ∧
  (∃ r rfh_id d env, reachable r ∧ Get_rfh_id rfh_id r = Some d ∧
     pending_association d = false ∧ is_Some (io_thread_client d) ∧
     weak_get env (io_thread_client d) = None).
Proof.
  split; [|split].
  - intros r Hr%reachable_ok. repeat split.
    + intros rfh_id d Hd. by apply (Get_rfh_id_ok r rfh_id d).
    + intros n d Hd. by apply (Get_frame_tree_node_id_ok r n d).
    + intros env pid rid h. unfold FromID.
      destruct (Get_rfh_id (pid, rid) r) as [d|] eqn:Hd; [|done].
      intros [= <-]. apply FromID_found_check. by eapply Get_rfh_id_ok.
    + intros env n h. unfold FromID_frame_tree_node_id.
      destruct (Get_frame_tree_node_id n r) as [d|] eqn:Hd; [|done].
      intros [= <-]. apply FromID_found_check. by eapply Get_frame_tree_node_id_ok.
  - pose (f := {| rfh_ptr := 1; GetProcessID := 2; GetRoutingID := 3;
                  GetFrameTreeNodeId := 4 |}).
    pose (wc := {| GetMainFrame := Some f |}).
    exists (snd (fst (Associate wc None g_instance_))), (2, 3),
      {| pending_association := false; io_thread_client := None |}.
    split; [by exists [Ev_Associate wc None]|]. done.
  - pose (f := {| rfh_ptr := 1; GetProcessID := 2; GetRoutingID := 3;
                  GetFrameTreeNodeId := 4 |}).
    pose (wc := {| GetMainFrame := Some f |}).
    exists (snd (fst (Associate wc (Some 8%positive) g_instance_))), (2, 3),
      {| pending_association := false; io_thread_client := Some 8%positive |},
      {| is_alive := λ _, false |}.
    split; [by exists [Ev_Associate wc (Some 8%positive)]|]. done.
Qed.

Lemma pending_record_has_no_delegate_witness :
  let f := {| rfh_ptr := 1; GetProcessID := 2; GetRoutingID := 3;
              GetFrameTreeNodeId := 4 |} in
  let wc := {| GetMainFrame := Some f |} in
  let d := {| pending_association := true; io_thread_client := None |} in
  ∃ r, run_events [Ev_RegisterPendingContents wc; Ev_SubFrameCreated 2 3 5]
         g_instance_ = Some r ∧
       Get_rfh_id (2, 5) r = Some d ∧ io_thread_client d = None.
Proof.
  intros f wc d.
  exists (Set_rfh_id (2, 5) d (Set_rfh_id (2, 3) d g_instance_)).
  split; [reflexivity|]. split; [reflexivity|].
  refine (proj1 (proj1 pending_record_has_no_delegate _ _) (2, 5) d _ _).
  - exists [Ev_RegisterPendingContents wc; Ev_SubFrameCreated 2 3 5]. reflexivity.
  - reflexivity.
  - reflexivity.
Defined.

(** ** Pending registration *)

Lemma Erase_slot_absent rfh n r :
  frame_tree_node_to_io_thread_client_ r !! n = None →
  frame_tree_node_to_io_thread_client_ (fst (Erase rfh r)) !! n = None.
Proof.
  intros Hn. rewrite Erase_ftn_map. cbn.
  destruct (decide (GetFrameTreeNodeId rfh = n)) as [->|Hne].
  - rewrite Hn. cbn. rewrite decide_True by set_solver. apply lookup_delete_eq.
  - case_decide.
    + by rewrite lookup_delete_ne.
    + by rewrite lookup_insert_ne.
Qed.

Lemma Set_rfh_slot_other rfh client n r :
  GetFrameTreeNodeId rfh ≠ n →
  frame_tree_node_to_io_thread_client_ (Set_rfh rfh client r) !! n =
  frame_tree_node_to_io_thread_client_ r !! n.
Proof. intros Hne. rewrite Set_rfh_ftn_map. by rewrite lookup_insert_ne. Qed.

(** An event that creates no frame in slot [n] leaves an absent slot [n]
    absent. *)
Lemma apply_event_slot_absent n e r r' :
  creates_frame_in n e = false →
  frame_tree_node_to_io_thread_client_ r !! n = None →
  apply_event e r = Some r' →
  frame_tree_node_to_io_thread_client_ r' !! n = None.
Proof.
  intros Hc Hn. destruct e as [wc|wc jclient|this rfh|this rfh|p parent child]; cbn in *.
  - unfold RegisterPendingContents. destruct (GetMainFrame wc); [|done].
    by intros [= <-].
  - intros [= <-]. destruct (GetMainFrame wc) as [f|]; [|done].
    apply bool_decide_eq_false in Hc.
    unfold RenderFrameCreated. by rewrite Set_rfh_slot_other.
  - intros [= <-]. apply bool_decide_eq_false in Hc.
    unfold RenderFrameCreated. by rewrite Set_rfh_slot_other.
  - intros [= <-]. by apply Erase_slot_absent.
  - intros [= <-]. unfold SubFrameCreated.
    by destruct (Get_rfh_id (p, parent) r).
Qed.

Lemma run_events_slot_absent n es : ∀ r r',
  forallb (λ e, negb (creates_frame_in n e)) es = true →
  frame_tree_node_to_io_thread_client_ r !! n = None →
  run_events es r = Some r' →
  frame_tree_node_to_io_thread_client_ r' !! n = None.
Proof.
  induction es as [|e es IH]; intros r r' Hes Hn; cbn in *.
  - by intros [= <-].
  - apply andb_true_iff in Hes as [He Hes]. apply negb_true_iff in He.
    destruct (apply_event e r) as [r1|] eqn:Hr1; [|done].
    apply IH; [done|]. by eapply apply_event_slot_absent.
Qed.

(** C9. Register-pending writes the frame-identity map alone.  Let no
    association and no frame creation have written the slot of the main
    frame of container [wc], neither before the registration (history
    [before], from the fresh instance) nor after it (history [after]).
    Then the registration leaves the frame-tree-node map as it was, the
    lookup by the identity of the main frame returns the pending record
    right after it, and the lookup by the frame-tree-node id of the main
    frame returns not-found right after it and at the end of [after]. *)
Theorem RegisterPendingContents_frame_identity_only
    (before after : list Event) (wc : WebContents) (main_frame : RenderFrameHost)
    (r : RfhToIoThreadClientMap) :
  GetMainFrame wc = Some main_frame →
  forallb (λ e, negb (creates_frame_in (GetFrameTreeNodeId main_frame) e)) before = true →
  forallb (λ e, negb (creates_frame_in (GetFrameTreeNodeId main_frame) e)) after = true →
  run_events before g_instance_ = Some r →
  ∃ r1, RegisterPendingContents wc r = Some r1 ∧
    frame_tree_node_to_io_thread_client_ r1 = frame_tree_node_to_io_thread_client_ r ∧
    Get_rfh_id (GetRenderFrameHostIdPair main_frame) r1 =
      Some {| pending_association := true; io_thread_client := None |} ∧
    Get_frame_tree_node_id (GetFrameTreeNodeId main_frame) r1 = None ∧
    ∀ r2, run_events after r1 = Some r2 →
      Get_frame_tree_node_id (GetFrameTreeNodeId main_frame) r2 = None.
Proof.
  intros Hmain Hbefore Hafter Hr.
  assert (frame_tree_node_to_io_thread_client_ r !! GetFrameTreeNodeId main_frame = None)
    as Hn by (eapply run_events_slot_absent; [exact Hbefore| |exact Hr]; done).
  unfold RegisterPendingContents. rewrite Hmain. eexists. split; [done|].
  split; [done|]. split; [apply Get_rfh_id_Set_rfh_id|].
  split.
  - by rewrite Get_frame_tree_node_id_lookup; cbn; rewrite Hn.
  - intros r2 Hr2. rewrite Get_frame_tree_node_id_lookup.
    erewrite run_events_slot_absent; [done|exact Hafter| |exact Hr2]. done.
Qed.

Lemma RegisterPendingContents_frame_identity_only_witness :
  let f := {| rfh_ptr := 1; GetProcessID := 2; GetRoutingID := 3;
              GetFrameTreeNodeId := 4 |} in
  let g := {| rfh_ptr := 9; GetProcessID := 2; GetRoutingID := 6;
              GetFrameTreeNodeId := 5 |} in
  let wc := {| GetMainFrame := Some f |} in
  let obs := {| web_contents := {| GetMainFrame := Some g |};
                jdelegate_ := Some 7%positive |} in
  ∃ r1, RegisterPendingContents wc (RenderFrameCreated obs g g_instance_) = Some r1 ∧
    Get_rfh_id (2, 3) r1 =
      Some {| pending_association := true; io_thread_client := None |} ∧
    Get_frame_tree_node_id 4 r1 = None.
Proof.
  intros f g wc obs.
  destruct (RegisterPendingContents_frame_identity_only
              [Ev_RenderFrameCreated obs g] [Ev_SubFrameCreated 2 3 8] wc f
              (RenderFrameCreated obs g g_instance_))
    as (r1 & H1 & _ & H2 & H3 & _); try reflexivity.
  exists r1. split; [exact H1|]. split; [exact H2|exact H3].
Defined.

(** C10. The sub-frame fast path copies a pending parent record as it is.
    In a reachable registry, when the record of the parent identity has
    its pending flag set, its delegate reference is empty, and after
    sub-frame-created the lookup by the child identity returns that very
    record: pending, with an empty delegate reference, and the handle made
    from it is a pending handle without delegate. *)
Theorem SubFrameCreated_copies_pending (pid parentId childId : Z)
    (r : RfhToIoThreadClientMap) (R : IoThreadClientData) (env : JavaHeap) :
  reachable r →
  Get_rfh_id (pid, parentId) r = Some R →
  pending_association R = true →
  let r' := fst (SubFrameCreated pid parentId childId r) in
  Get_rfh_id (pid, childId) r' = Some R ∧
  R = {| pending_association := true; io_thread_client := None |} ∧
  FromID env pid childId r' =
    Some ({| pending_association_ := true; java_object_ := None |}, true).
Proof.
  intros Hr HR Hp. cbn.
  assert (io_thread_client R = None) as Hio
    by (eapply Get_rfh_id_ok; [by apply reachable_ok|exact HR|exact Hp]).
  assert (R = {| pending_association := true; io_thread_client := None |}) as HReq
    by (destruct R; cbn in *; congruence).
  unfold SubFrameCreated. rewrite HR. cbn.
  split; [apply Get_rfh_id_Set_rfh_id|]. split; [done|].
  unfold FromID. rewrite Get_rfh_id_Set_rfh_id. by rewrite HReq.
Qed.

Lemma SubFrameCreated_copies_pending_witness :
  let f := {| rfh_ptr := 1; GetProcessID := 2; GetRoutingID := 5;
              GetFrameTreeNodeId := 4 |} in
  let wc := {| GetMainFrame := Some f |} in
  let R := {| pending_association := true; io_thread_client := None |} in
  let r := Set_rfh_id (2, 5) R g_instance_ in
  Get_rfh_id (2, 7) (fst (SubFrameCreated 2 5 7 r)) = Some R.
Proof.
  intros f wc R r.
  refine (proj1 (SubFrameCreated_copies_pending 2 5 7 r R
                   {| is_alive := λ _, true |} _ _ _)).
  - exists [Ev_RegisterPendingContents wc]. reflexivity.
  - reflexivity.
  - reflexivity.
Defined.

(** ** Handles without delegate *)

Lemma weak_get_absent env (w : JavaObjectWeakGlobalRef) :
  weak_get env w = None ↔
  w = None ∨ ∃ o, w = Some o ∧ is_alive env o = false.
Proof.
  unfold weak_get. destruct w as [o|].
  - destruct (is_alive env o) eqn:Ho; split.
    + done.
    + intros [?|(o' & [= <-] & ?)]; congruence.
    + intros _. right. by exists o.
    + done.
  - split; [by left|done].
Qed.

(** C6. A handle whose resolved delegate is absent answers every policy
    query with the fixed default and makes no call into the managed
    runtime: the cache mode is [LOAD_DEFAULT], the interception result is
    absent, the four boolean queries are false, and the notification of
    received response headers does nothing.  The handle [FromID] builds
    from a record is such a handle exactly when the record's reference is
    empty or its referent has been collected. *)
Theorem absent_delegate_defaults (LOAD_DEFAULT : CacheMode) (java : JavaClient)
    (this : XWalkContentsIoThreadClient) :
  java_object_ this = None →
  GetCacheMode LOAD_DEFAULT java this = (LOAD_DEFAULT, []) ∧
  (∀ location request,
     ShouldInterceptRequest java this location request = (None, [])) ∧
  ShouldBlockContentUrls java this = (false, []) ∧
  ShouldBlockFileUrls java this = (false, []) ∧
  ShouldBlockNetworkLoads java this = (false, []) ∧
  ShouldAcceptThirdPartyCookies java this = (false, []) ∧
  (∀ request response_headers,
     OnReceivedResponseHeaders this request response_headers = []) ∧
  (∀ env client_data,
     java_object_ (fst (FromID_found env client_data)) = None ↔
     io_thread_client client_data = None ∨
     ∃ o, io_thread_client client_data = Some o ∧ is_alive env o = false).
Proof.
  intros Hnull.
  unfold GetCacheMode, ShouldInterceptRequest, ShouldBlockContentUrls,
    ShouldBlockFileUrls, ShouldBlockNetworkLoads, ShouldAcceptThirdPartyCookies,
    OnReceivedResponseHeaders.
  rewrite Hnull. repeat split; try done.
  - intros H. by apply weak_get_absent.
  - intros H. by apply weak_get_absent.
Qed.

Lemma absent_delegate_defaults_witness :
  let java := {| Java_getCacheMode := λ _, 2;
                 Java_shouldInterceptRequest := λ o _ _ _ _ _ _, Some o;
                 Java_shouldBlockContentUrls := λ _, true;
                 Java_shouldBlockFileUrls := λ _, true;
                 Java_shouldBlockNetworkLoads := λ _, true;
                 Java_shouldAcceptThirdPartyCookies := λ _, true |} in
  let gone := {| is_alive := λ _, false |} in
  let d := {| pending_association := false; io_thread_client := Some 3%positive |} in
  GetCacheMode (-1) java (fst (FromID_found gone d)) = (-1, []) ∧
  ShouldBlockNetworkLoads java (fst (FromID_found gone d)) = (false, []).
Proof.
  intros java gone d.
  destruct (absent_delegate_defaults (-1) java (fst (FromID_found gone d)))
    as (H1 & _ & _ & _ & H2 & _).
  - reflexivity.
  - split; [exact H1|exact H2].
Defined.

(** C5. After register-pending for a container with main frame
    [main_frame], the lookup by the identity of that frame produces a
    handle (the assertion of [FromID] holds) whose pending flag is set and
    whose every policy query returns its default without any call into the
    managed runtime: cache mode [LOAD_DEFAULT], interception result
    absent, the four boolean queries false. *)
Theorem RegisterPendingContents_handle (LOAD_DEFAULT : CacheMode) (java : JavaClient)
    (env : JavaHeap) (wc : WebContents) (main_frame : RenderFrameHost)
    (r : RfhToIoThreadClientMap) :
  GetMainFrame wc = Some main_frame →
  ∃ r1 this,
    RegisterPendingContents wc r = Some r1 ∧
    FromID env (GetProcessID main_frame) (GetRoutingID main_frame) r1 = Some (this, true) ∧
    PendingAssociation this = true ∧
    GetCacheMode LOAD_DEFAULT java this = (LOAD_DEFAULT, []) ∧
    (∀ location request,
       ShouldInterceptRequest java this location request = (None, [])) ∧
    ShouldBlockContentUrls java this = (false, []) ∧
    ShouldBlockFileUrls java this = (false, []) ∧
    ShouldBlockNetworkLoads java this = (false, []) ∧
    ShouldAcceptThirdPartyCookies java this = (false, []).
Proof.
  intros Hmain. unfold RegisterPendingContents. rewrite Hmain.
  eexists. exists {| pending_association_ := true; java_object_ := None |}.
  split; [done|]. split.
  - unfold FromID. fold (GetRenderFrameHostIdPair main_frame).
    by rewrite Get_rfh_id_Set_rfh_id.
  - done.
Qed.

Lemma RegisterPendingContents_handle_witness :
  let f := {| rfh_ptr := 1; GetProcessID := 2; GetRoutingID := 3;
              GetFrameTreeNodeId := 4 |} in
  let wc := {| GetMainFrame := Some f |} in
  let java := {| Java_getCacheMode := λ _, 2;
                 Java_shouldInterceptRequest := λ o _ _ _ _ _ _, Some o;
                 Java_shouldBlockContentUrls := λ _, true;
                 Java_shouldBlockFileUrls := λ _, true;
                 Java_shouldBlockNetworkLoads := λ _, true;
                 Java_shouldAcceptThirdPartyCookies := λ _, true |} in
  let env := {| is_alive := λ _, true |} in
  ∃ r1 this, RegisterPendingContents wc g_instance_ = Some r1 ∧
    FromID env 2 3 r1 = Some (this, true) ∧
    PendingAssociation this = true ∧
    GetCacheMode (-1) java this = (-1, []).
Proof.
  intros f wc java env.
  destruct (RegisterPendingContents_handle (-1) java env wc f g_instance_)
    as (r1 & this & H1 & H2 & H3 & H4 & _).
  - reflexivity.
  - exists r1, this. repeat split; assumption.
Defined.

(** ** Association *)

Lemma Get_rfh_id_Set_rfh rfh client r :
  Get_rfh_id (GetRenderFrameHostIdPair rfh) (Set_rfh rfh client r) = Some client.
Proof. unfold Get_rfh_id. rewrite Set_rfh_rfh_map. apply lookup_insert_eq. Qed.

Lemma Get_frame_tree_node_id_Set_rfh rfh client r :
  Get_frame_tree_node_id (GetFrameTreeNodeId rfh) (Set_rfh rfh client r) = Some client.
Proof.
  rewrite Get_frame_tree_node_id_lookup, Set_rfh_ftn_map.
  by rewrite lookup_insert_eq.
Qed.

(** C7. When the container already has a main frame [F1] at the time a
    live delegate [D] is associated with it, the observer's constructor
    runs the frame-created callback for [F1]: right after the association
    the lookup by the identity of [F1] produces a handle that is not
    pending and holds [D], whose queries go to [D]; the lookup by the
    frame-tree-node id of [F1] produces the same handle. *)
Theorem Associate_existing_main_frame (LOAD_DEFAULT : CacheMode) (java : JavaClient)
    (env : JavaHeap) (wc : WebContents) (F1 : RenderFrameHost) (D : jobject)
    (r : RfhToIoThreadClientMap) :
  GetMainFrame wc = Some F1 →
  is_alive env D = true →
  let observer := fst (fst (Associate wc (Some D) r)) in
  let r1 := snd (fst (Associate wc (Some D) r)) in
  let this := {| pending_association_ := false; java_object_ := Some D |} in
  snd (Associate wc (Some D) r) = true ∧
  r1 = RenderFrameCreated observer F1 r ∧
  FromID env (GetProcessID F1) (GetRoutingID F1) r1 = Some (this, true) ∧
  FromID_frame_tree_node_id env (GetFrameTreeNodeId F1) r1 = Some (this, true) ∧
  PendingAssociation this = false ∧
  GetCacheMode LOAD_DEFAULT java this = (Java_getCacheMode java D, [Call_getCacheMode D]).
Proof.
  intros Hmain Halive. unfold Associate, ClientMapEntryUpdater_new.
  rewrite Hmain. cbn -[FromID FromID_frame_tree_node_id].
  split; [done|]. split; [done|].
  unfold FromID, FromID_frame_tree_node_id, RenderFrameCreated.
  fold (GetRenderFrameHostIdPair F1).
  rewrite Get_rfh_id_Set_rfh, Get_frame_tree_node_id_Set_rfh.
  unfold FromID_found. cbn. rewrite Halive. done.
Qed.

Lemma Associate_existing_main_frame_witness :
  let F1 := {| rfh_ptr := 1; GetProcessID := 2; GetRoutingID := 3;
               GetFrameTreeNodeId := 4 |} in
  let wc := {| GetMainFrame := Some F1 |} in
  let env := {| is_alive := λ _, true |} in
  let pending := {| pending_association := true; io_thread_client := None |} in
  let r := Set_rfh_id (2, 3) pending g_instance_ in
  FromID env 2 3 (snd (fst (Associate wc (Some 6%positive) r))) =
    Some ({| pending_association_ := false; java_object_ := Some 6%positive |}, true).
Proof.
  intros F1 wc env pending r.
  pose (java := {| Java_getCacheMode := λ _, 2;
                   Java_shouldInterceptRequest := λ o _ _ _ _ _ _, Some o;
                   Java_shouldBlockContentUrls := λ _, true;
                   Java_shouldBlockFileUrls := λ _, true;
                   Java_shouldBlockNetworkLoads := λ _, true;
                   Java_shouldAcceptThirdPartyCookies := λ _, true |}).
  destruct (Associate_existing_main_frame (-1) java env wc F1 6%positive r)
    as (_ & _ & H & _).
  - reflexivity.
  - reflexivity.
  - exact H.
Defined.

(** ** The registry under concurrent callers *)

Lemma step_fun_sound i cfg cfg' : step_fun i cfg = Some cfg' → step cfg i cfg'.
Proof.
  unfold step_fun.
  destruct (threads cfg !! i) as [[cur td]|] eqn:Ht; [|done]. cbn.
  destruct cur as [|ins k].
  - destruct td as [|c cs]; [done|]. intros [= <-]. by eapply step_call.
  - destruct ins;
      try (intros [= <-];
           match type of Ht with
           | _ = Some {| current := ?ins :: _; todo := _ |} =>
               by apply (step_instr cfg i ins _ _ Ht)
           end).
    + destruct (map_lock_ cfg) eqn:Hl; [done|].
      intros [= <-]. by eapply step_acquire.
    + case_decide; [|done]. intros [= <-]. by eapply step_release.
Qed.

Lemma steps_trans cfg1 cfg2 cfg3 :
  steps cfg1 cfg2 → steps cfg2 cfg3 → steps cfg1 cfg3.
Proof.
  intros H12 H23. induction H23 as [|cfg2 cfg3 cfg4 i _ IH Hs]; [done|].
  eapply steps_step; [by apply IH|exact Hs].
Qed.

Lemma run_schedule_sound schedule : ∀ cfg cfg',
  run_schedule schedule cfg = Some cfg' → steps cfg cfg'.
Proof.
  induction schedule as [|i schedule IH]; intros cfg cfg'; cbn.
  - intros [= <-]. apply steps_refl.
  - destruct (step_fun i cfg) as [cfg1|] eqn:Hs; [|done].
    intros Hrun. eapply steps_trans; [|by apply IH].
    eapply steps_step; [apply steps_refl|by apply step_fun_sound].
Qed.

(** A method body run on its own is the method. *)
Lemma exec_instrs_Set_rfh rfh client r :
  exec_instrs [Ftn_assign_insert rfh client;
               Rfh_assign (GetRenderFrameHostIdPair rfh) client] r
  = Set_rfh rfh client r.
Proof.
  unfold exec_instrs, Set_rfh. cbn.
  by destruct (ftn_index (GetFrameTreeNodeId rfh) (frame_tree_node_to_io_thread_client_ r)).
Qed.

Lemma exec_instrs_Erase rfh r :
  exec_instrs [Ftn_erase rfh; Rfh_erase (GetRenderFrameHostIdPair rfh)] r
  = fst (Erase rfh r).
Proof.
  unfold exec_instrs, Erase. cbn.
  by destruct (ftn_index (GetFrameTreeNodeId rfh) (frame_tree_node_to_io_thread_client_ r)).
Qed.

(** Splitting a body at one of its instructions. *)
Ltac split_body H c pre :=
  destruct c; cbn in H;
  destruct pre as [|? [|? [|? [|? ?]]]]; cbn in H; simplify_eq.

Lemma body_at_Release c pre k :
  body c = Acquire :: pre ++ Release :: k →
  k = [] ∧ ∀ r, exec_instrs pre r = run_call c r.
Proof.
  intros H. split_body H c pre; split; try done; intros r; cbn [run_call].
  - by rewrite <- exec_instrs_Set_rfh.
  - by rewrite <- exec_instrs_Erase.
Qed.

Lemma body_at_other c pre ins k :
  body c = Acquire :: pre ++ ins :: k → ins ≠ Release → k ≠ [].
Proof. intros H Hins. split_body H c pre; done. Qed.

Lemma body_at_read c pre ins k :
  body c = Acquire :: pre ++ ins :: k → is_read ins = true → pre = [].
Proof. intros H Hins. split_body H c pre; done. Qed.

Lemma body_tail c k : body c = Acquire :: k → k ≠ [].
Proof. destruct c; cbn; by intros [= <-]. Qed.

Lemma outside_head t ins k :
  outside t → current t = ins :: k → ins = Acquire.
Proof.
  intros [Hc|[c Hc]] Ht; rewrite Hc in Ht; [done|].
  by destruct c; cbn in Ht; simplify_eq.
Qed.

Lemma config_inv_init r0 progs : config_inv r0 (init_config r0 progs).
Proof.
  exists []. cbn. split; [done|].
  intros j t Ht. apply list_lookup_fmap_Some in Ht as (p & -> & _).
  by left.
Qed.

Lemma lookup_insert_thread (ts : list Thread) i j t t0 :
  ts !! i = Some t0 →
  <[i := t]> ts !! j = if decide (i = j) then Some t else ts !! j.
Proof.
  intros Hi. case_decide as Hij.
  - subst j. apply list_lookup_insert_eq. by eapply lookup_lt_Some.
  - by apply list_lookup_insert_ne.
Qed.

Lemma config_inv_step r0 cfg i cfg' :
  config_inv r0 cfg → step cfg i cfg' → config_inv r0 cfg'.
Proof.
  intros [done Hinv] Hstep.
  destruct Hstep as [cfg i c cs Ht|cfg i k cs Ht Hl|cfg i k cs Ht Hl|cfg i ins k cs Ht Ha Hr].
  - (* the thread enters a method *)
    exists done. cbn. destruct (map_lock_ cfg) as [h|].
    + destruct Hinv as [(t & c0 & pre & Hh & Hbody & Hcur & Hreg) Hout].
      assert (i ≠ h) as Hih by (intros ->; rewrite Ht in Hh; by simplify_eq).
      split.
      * exists t, c0, pre. by rewrite (lookup_insert_thread _ _ _ _ _ Ht), decide_False.
      * intros j t' Hj. rewrite (lookup_insert_thread _ _ _ _ _ Ht).
        case_decide; [intros [= <-]; right; by exists c|by apply Hout].
    + destruct Hinv as [Hreg Hout]. split; [done|].
      intros j t'. rewrite (lookup_insert_thread _ _ _ _ _ Ht).
      case_decide; [intros [= <-]; right; by exists c|by apply Hout].
  - (* the thread takes the free lock *)
    exists done. rewrite Hl in Hinv. destruct Hinv as [Hreg Hout]. cbn.
    destruct (Hout i _ Ht) as [Hc|[c Hc]]; cbn in Hc; [done|].
    split.
    + exists {| current := k; todo := cs |}, c, []. cbn.
      rewrite (lookup_insert_thread _ _ _ _ _ Ht), decide_True by done.
      split; [done|]. split; [done|]. split; [|done].
      apply (body_tail c). by rewrite <- Hc.
    + intros j t' Hj. rewrite (lookup_insert_thread _ _ _ _ _ Ht), decide_False by done.
      by apply Hout.
  - (* the thread gives the lock back *)
    rewrite Hl in Hinv.
    destruct Hinv as [(t & c & pre & Hh & Hbody & Hcur & Hreg) Hout].
    rewrite Ht in Hh. simplify_eq. cbn in *.
    apply body_at_Release in Hbody as [-> Hrun].
    exists (done ++ [c]). cbn. split.
    + unfold run_calls. rewrite foldl_app. cbn. by rewrite <- Hrun.
    + intros j t'. rewrite (lookup_insert_thread _ _ _ _ _ Ht).
      case_decide; [intros [= <-]; by left|by apply Hout].
  - (* the thread runs a statement on the maps *)
    exists done. cbn. destruct (map_lock_ cfg) as [h|].
    + destruct Hinv as [(t & c & pre & Hh & Hbody & Hcur & Hreg) Hout].
      destruct (decide (i = h)) as [->|Hih].
      * rewrite Ht in Hh. simplify_eq. cbn in *. split.
        -- exists {| current := k; todo := cs |}, c, (pre ++ [ins]). cbn.
           rewrite (lookup_insert_thread _ _ _ _ _ Ht), decide_True by done.
           split; [done|]. split; [by rewrite <- app_assoc|]. split.
           ++ by eapply body_at_other.
           ++ unfold exec_instrs. rewrite foldl_app. cbn. by rewrite Hreg.
        -- intros j t' Hj.
           rewrite (lookup_insert_thread _ _ _ _ _ Ht), decide_False by done.
           by apply Hout.
      * exfalso. apply Ha. by eapply (outside_head _ ins k (Hout i _ Hih Ht)).
    + destruct Hinv as [Hreg Hout].
      exfalso. apply Ha. by eapply (outside_head _ ins k (Hout i _ Ht)).
Qed.

Lemma config_inv_steps r0 progs cfg :
  steps (init_config r0 progs) cfg → config_inv r0 cfg.
Proof.
  intros H. remember (init_config r0 progs) as cfg0 eqn:Hcfg0.
  induction H as [|cfg1 cfg2 cfg3 i _ IH Hs].
  - subst. apply config_inv_init.
  - eapply config_inv_step; [by apply IH|exact Hs].
Qed.

(** * Further properties of the registry *)

Lemma registry_eq (r1 r2 : RfhToIoThreadClientMap) :
  rfh_to_io_thread_client_ r1 = rfh_to_io_thread_client_ r2 →
  frame_tree_node_to_io_thread_client_ r1 = frame_tree_node_to_io_thread_client_ r2 →
  r1 = r2.
Proof. destruct r1, r2. cbn. by intros -> ->. Qed.

Lemma hosts_of_Set_rfh rfh client r :
  hosts_of (GetFrameTreeNodeId rfh) (Set_rfh rfh client r)
  = {[rfh_ptr rfh]} ∪ hosts_of (GetFrameTreeNodeId rfh) r.
Proof.
  unfold hosts_of at 1. by rewrite Set_rfh_ftn_map, lookup_insert_eq.
Qed.

(** X1. [Set] by frame writes the record under the frame's identity and
    under its frame-tree-node id and adds the frame to the hosts of its
    slot; the lookups by every other identity and by every other
    frame-tree-node id, and the hosts of every other slot, are as
    before. *)
Theorem Set_rfh_own_keys_only (rfh : RenderFrameHost) (client : IoThreadClientData)
    (r : RfhToIoThreadClientMap) :
  Get_rfh_id (GetRenderFrameHostIdPair rfh) (Set_rfh rfh client r) = Some client ∧
  Get_frame_tree_node_id (GetFrameTreeNodeId rfh) (Set_rfh rfh client r) = Some client ∧
  hosts_of (GetFrameTreeNodeId rfh) (Set_rfh rfh client r)
    = {[rfh_ptr rfh]} ∪ hosts_of (GetFrameTreeNodeId rfh) r ∧
  (∀ rfh_id, rfh_id ≠ GetRenderFrameHostIdPair rfh →
     Get_rfh_id rfh_id (Set_rfh rfh client r) = Get_rfh_id rfh_id r) ∧
  (∀ n, n ≠ GetFrameTreeNodeId rfh →
     Get_frame_tree_node_id n (Set_rfh rfh client r) = Get_frame_tree_node_id n r ∧
     hosts_of n (Set_rfh rfh client r) = hosts_of n r).
Proof.
  split; [apply Get_rfh_id_Set_rfh|].
  split; [apply Get_frame_tree_node_id_Set_rfh|].
  split; [apply hosts_of_Set_rfh|]. split.
  - intros rfh_id Hne. unfold Get_rfh_id.
    by rewrite Set_rfh_rfh_map, lookup_insert_ne.
  - intros n Hne. rewrite !Get_frame_tree_node_id_lookup. unfold hosts_of.
    by rewrite Set_rfh_slot_other.
Qed.

Lemma Set_rfh_own_keys_only_witness :
  let f := {| rfh_ptr := 1; GetProcessID := 2; GetRoutingID := 3;
              GetFrameTreeNodeId := 4 |} in
  let g := {| rfh_ptr := 9; GetProcessID := 2; GetRoutingID := 6;
              GetFrameTreeNodeId := 5 |} in
  let d := {| pending_association := false; io_thread_client := Some 5%positive |} in
  let e := {| pending_association := false; io_thread_client := Some 8%positive |} in
  Get_rfh_id (2, 3) (Set_rfh g e (Set_rfh f d g_instance_)) = Some d ∧
  Get_frame_tree_node_id 4 (Set_rfh g e (Set_rfh f d g_instance_)) = Some d.
Proof.
  intros f g d e.
  destruct (Set_rfh_own_keys_only g e (Set_rfh f d g_instance_))
    as (_ & _ & _ & Hid & Hn).
  split.
  - rewrite (Hid (2, 3)); [reflexivity|discriminate].
  - rewrite (proj1 (Hn 4 ltac:(discriminate))). reflexivity.
Defined.

(** X2. [Erase] removes the entry of the frame's identity and takes the
    frame out of the hosts of its slot, dropping the slot when no host is
    left and keeping its record otherwise; it changes no other identity
    and no other slot, and its assertion holds exactly when the frame was
    a host of its slot. *)
Theorem Erase_own_keys_only (rfh : RenderFrameHost) (r : RfhToIoThreadClientMap) :
  let r' := fst (Erase rfh r) in
  let n := GetFrameTreeNodeId rfh in
  Get_rfh_id (GetRenderFrameHostIdPair rfh) r' = None ∧
  hosts_of n r' = hosts_of n r ∖ {[rfh_ptr rfh]} ∧
  Get_frame_tree_node_id n r' =
    (if decide (hosts_of n r ∖ {[rfh_ptr rfh]} = ∅) then None
     else Get_frame_tree_node_id n r) ∧
  snd (Erase rfh r) = bool_decide (rfh_ptr rfh ∈ hosts_of n r) ∧
  (∀ rfh_id, rfh_id ≠ GetRenderFrameHostIdPair rfh →
     Get_rfh_id rfh_id r' = Get_rfh_id rfh_id r) ∧
  (∀ n', n' ≠ n →
     frame_tree_node_to_io_thread_client_ r' !! n'
     = frame_tree_node_to_io_thread_client_ r !! n').
Proof.
  cbn. split; [|split; [|split; [|split; [|split]]]].
  - unfold Get_rfh_id. rewrite Erase_rfh_map. apply lookup_delete_eq.
  - unfold hosts_of. rewrite Erase_ftn_map. cbn.
    destruct (frame_tree_node_to_io_thread_client_ r !! GetFrameTreeNodeId rfh)
      as [[hosts old]|] eqn:He; cbn.
    + case_decide as Hd; [by rewrite lookup_delete_eq|by rewrite lookup_insert_eq].
    + rewrite decide_True by set_solver. rewrite lookup_delete_eq. set_solver.
  - rewrite !Get_frame_tree_node_id_lookup. unfold hosts_of.
    rewrite Erase_ftn_map. cbn.
    destruct (frame_tree_node_to_io_thread_client_ r !! GetFrameTreeNodeId rfh)
      as [[hosts old]|] eqn:He; cbn.
    + case_decide as Hd; [by rewrite lookup_delete_eq|by rewrite lookup_insert_eq].
    + rewrite !decide_True by set_solver. by rewrite lookup_delete_eq.
  - apply Erase_check.
  - intros rfh_id Hne. unfold Get_rfh_id.
    by rewrite Erase_rfh_map, lookup_delete_ne.
  - intros n' Hne. rewrite Erase_ftn_map. cbn.
    case_decide; [by rewrite lookup_delete_ne|by rewrite lookup_insert_ne].
Qed.

Lemma Erase_own_keys_only_witness :
  let f := {| rfh_ptr := 1; GetProcessID := 2; GetRoutingID := 3;
              GetFrameTreeNodeId := 4 |} in
  let g := {| rfh_ptr := 9; GetProcessID := 2; GetRoutingID := 6;
              GetFrameTreeNodeId := 5 |} in
  let d := {| pending_association := false; io_thread_client := Some 5%positive |} in
  let r := Set_rfh g d (Set_rfh f d g_instance_) in
  Get_rfh_id (2, 6) (fst (Erase f r)) = Some d ∧
  Get_frame_tree_node_id 5 (fst (Erase f r)) = Some d.
Proof.
  intros f g d r.
  destruct (Erase_own_keys_only f r) as (_ & _ & _ & _ & Hid & Hn).
  split.
  - rewrite (Hid (2, 6)); [reflexivity|discriminate].
  - rewrite Get_frame_tree_node_id_lookup, (Hn 5); [reflexivity|discriminate].
Defined.

(** X3. A frame-created callback delivered twice for the same frame with
    the same record (the one the observer's constructor runs for the main
    frame, then the one of the engine) leaves the registry as one
    delivery does: the hosts of a slot are a set. *)
Theorem Set_rfh_idempotent (rfh : RenderFrameHost) (client : IoThreadClientData)
    (r : RfhToIoThreadClientMap) :
  Set_rfh rfh client (Set_rfh rfh client r) = Set_rfh rfh client r.
Proof.
  apply registry_eq.
  - rewrite (Set_rfh_rfh_map rfh client (Set_rfh rfh client r)).
    rewrite Set_rfh_rfh_map. apply insert_insert_eq.
  - rewrite (Set_rfh_ftn_map rfh client (Set_rfh rfh client r)).
    rewrite hosts_of_Set_rfh, Set_rfh_ftn_map, insert_insert_eq.
    f_equal. f_equal. set_solver.
Qed.

(** X4. Adding a frame whose identity and whose slot the registry does
    not hold and erasing it again gives the registry back as it was, and
    the assertion of [Erase] holds. *)
Theorem Erase_Set_rfh_fresh (rfh : RenderFrameHost) (client : IoThreadClientData)
    (r : RfhToIoThreadClientMap) :
  Get_rfh_id (GetRenderFrameHostIdPair rfh) r = None →
  Get_frame_tree_node_id (GetFrameTreeNodeId rfh) r = None →
  Erase rfh (Set_rfh rfh client r) = (r, true).
Proof.
  unfold Get_rfh_id. rewrite Get_frame_tree_node_id_lookup.
  intros Hid Hn.
  destruct (frame_tree_node_to_io_thread_client_ r !! GetFrameTreeNodeId rfh)
    as [e|] eqn:He; [done|].
  rewrite (surjective_pairing (Erase rfh (Set_rfh rfh client r))). f_equal.
  - apply registry_eq.
    + rewrite Erase_rfh_map, Set_rfh_rfh_map, delete_insert_eq. by apply delete_id.
    + rewrite Erase_ftn_map, Set_rfh_ftn_map. cbn.
      rewrite lookup_insert_eq. cbn. unfold hosts_of. rewrite He.
      rewrite decide_True by set_solver.
      rewrite delete_insert_eq. by apply delete_id.
  - rewrite Erase_check, hosts_of_Set_rfh.
    apply bool_decide_eq_true_2. set_solver.
Qed.

Lemma Erase_Set_rfh_fresh_witness :
  let f := {| rfh_ptr := 1; GetProcessID := 2; GetRoutingID := 3;
              GetFrameTreeNodeId := 4 |} in
  let g := {| rfh_ptr := 9; GetProcessID := 2; GetRoutingID := 6;
              GetFrameTreeNodeId := 5 |} in
  let d := {| pending_association := false; io_thread_client := Some 5%positive |} in
  Erase g (Set_rfh g d (Set_rfh f d g_instance_)) = (Set_rfh f d g_instance_, true).
Proof.
  intros f g d. apply Erase_Set_rfh_fresh; reflexivity.
Defined.

(** X5. [Erase] does not restore the record of a slot.  When a frame is
    added to a slot other frames already occupy and is erased again, the
    hosts of the slot are as before, but the lookup by the
    frame-tree-node id keeps returning the record written for the erased
    frame. *)
Theorem Erase_keeps_overwritten_record (rfh : RenderFrameHost)
    (client : IoThreadClientData) (r : RfhToIoThreadClientMap) :
  hosts_of (GetFrameTreeNodeId rfh) r ≠ ∅ →
  rfh_ptr rfh ∉ hosts_of (GetFrameTreeNodeId rfh) r →
  let r' := fst (Erase rfh (Set_rfh rfh client r)) in
  hosts_of (GetFrameTreeNodeId rfh) r' = hosts_of (GetFrameTreeNodeId rfh) r ∧
  Get_frame_tree_node_id (GetFrameTreeNodeId rfh) r' = Some client.
Proof.
  intros Hne Hnotin. cbn.
  assert (({[rfh_ptr rfh]} ∪ hosts_of (GetFrameTreeNodeId rfh) r) ∖ {[rfh_ptr rfh]}
          = hosts_of (GetFrameTreeNodeId rfh) r) as Hset by set_solver.
  assert (frame_tree_node_to_io_thread_client_ (fst (Erase rfh (Set_rfh rfh client r)))
            !! GetFrameTreeNodeId rfh
          = Some (hosts_of (GetFrameTreeNodeId rfh) r, client)) as Hslot.
  { erewrite Erase_slot; [|by rewrite Set_rfh_ftn_map, lookup_insert_eq].
    rewrite Hset. by rewrite decide_False. }
  split.
  - unfold hosts_of at 1. by rewrite Hslot.
  - by rewrite Get_frame_tree_node_id_lookup, Hslot.
Qed.

Lemma Erase_keeps_overwritten_record_witness :
  let f := {| rfh_ptr := 1; GetProcessID := 2; GetRoutingID := 3;
              GetFrameTreeNodeId := 4 |} in
  let g := {| rfh_ptr := 9; GetProcessID := 7; GetRoutingID := 6;
              GetFrameTreeNodeId := 4 |} in
  let d := {| pending_association := false; io_thread_client := Some 5%positive |} in
  let e := {| pending_association := false; io_thread_client := Some 8%positive |} in
  Get_frame_tree_node_id 4 (Set_rfh f d g_instance_) = Some d ∧
  Get_frame_tree_node_id 4 (fst (Erase g (Set_rfh g e (Set_rfh f d g_instance_)))) = Some e.
Proof.
  intros f g d e. split; [reflexivity|].
  assert (hosts_of (GetFrameTreeNodeId g) (Set_rfh f d g_instance_) = {[1%N]})
    as Hh by reflexivity.
  apply (Erase_keeps_overwritten_record g e (Set_rfh f d g_instance_)).
  - rewrite Hh. apply non_empty_singleton_L.
  - rewrite Hh. intros H. apply elem_of_singleton in H. discriminate.
Defined.

Lemma hosts_of_Erase rfh r :
  hosts_of (GetFrameTreeNodeId rfh) (fst (Erase rfh r))
  = hosts_of (GetFrameTreeNodeId rfh) r ∖ {[rfh_ptr rfh]}.
Proof.
  unfold hosts_of. rewrite Erase_ftn_map. cbn.
  destruct (frame_tree_node_to_io_thread_client_ r !! GetFrameTreeNodeId rfh)
    as [[hosts old]|] eqn:He; cbn.
  - case_decide as Hd; [by rewrite lookup_delete_eq|by rewrite lookup_insert_eq].
  - rewrite decide_True by set_solver. rewrite lookup_delete_eq. set_solver.
Qed.

(** [Erase] leaves no entry with an empty hosts set in the slot of its
    frame. *)
Lemma Erase_slot_nonempty rfh r e :
  frame_tree_node_to_io_thread_client_ (fst (Erase rfh r)) !! GetFrameTreeNodeId rfh
    = Some e →
  fst e ≠ ∅.
Proof.
  rewrite Erase_ftn_map. cbn. case_decide as Hd.
  - by rewrite lookup_delete_eq.
  - rewrite lookup_insert_eq. by intros [= <-].
Qed.

(** Erasing a frame that is no host of its slot leaves the
    frame-tree-node map as it is, provided the slot has no entry with an
    empty hosts set. *)
Lemma Erase_ftn_map_not_host rfh r :
  rfh_ptr rfh ∉ hosts_of (GetFrameTreeNodeId rfh) r →
  (∀ e, frame_tree_node_to_io_thread_client_ r !! GetFrameTreeNodeId rfh = Some e →
        fst e ≠ ∅) →
  frame_tree_node_to_io_thread_client_ (fst (Erase rfh r))
  = frame_tree_node_to_io_thread_client_ r.
Proof.
  unfold hosts_of. intros Hnotin Hne. rewrite Erase_ftn_map. cbn.
  destruct (frame_tree_node_to_io_thread_client_ r !! GetFrameTreeNodeId rfh)
    as [[hosts old]|] eqn:He; cbn in *.
  - assert (hosts ∖ {[rfh_ptr rfh]} = hosts) as -> by set_solver.
    rewrite decide_False by (by apply (Hne (hosts, old))).
    by apply insert_id.
  - rewrite decide_True by set_solver. by apply delete_id.
Qed.

(** X6. Erasing the same frame a second time changes nothing more, and
    the assertion of the second [Erase] fails. *)
Theorem Erase_twice (rfh : RenderFrameHost) (r : RfhToIoThreadClientMap) :
  Erase rfh (fst (Erase rfh r)) = (fst (Erase rfh r), false).
Proof.
  assert (rfh_ptr rfh ∉ hosts_of (GetFrameTreeNodeId rfh) (fst (Erase rfh r)))
    as Hnotin by (rewrite hosts_of_Erase; set_solver).
  rewrite (surjective_pairing (Erase rfh (fst (Erase rfh r)))). f_equal.
  - apply registry_eq.
    + rewrite !Erase_rfh_map. apply delete_delete_eq.
    + apply Erase_ftn_map_not_host; [done|]. apply Erase_slot_nonempty.
  - rewrite Erase_check. by apply bool_decide_eq_false_2.
Qed.

(** ** Slots of reachable registries *)

Lemma slots_ok_fresh : slots_ok g_instance_.
Proof. intros n e H. cbn in H. by rewrite lookup_empty in H. Qed.

Lemma Set_rfh_slots_ok rfh client r :
  pending_association client = false → slots_ok r → slots_ok (Set_rfh rfh client r).
Proof.
  intros Hc Hr n e. rewrite Set_rfh_ftn_map, lookup_insert.
  case_decide; [|by apply Hr]. intros [= <-]. split; [cbn; set_solver|done].
Qed.

Lemma Erase_slots_ok rfh r : slots_ok r → slots_ok (fst (Erase rfh r)).
Proof.
  intros Hr n e.
  destruct (decide (n = GetFrameTreeNodeId rfh)) as [->|Hne].
  - intros He. split; [by eapply Erase_slot_nonempty|].
    revert He. rewrite Erase_ftn_map. cbn. case_decide as Hd.
    + by rewrite lookup_delete_eq.
    + rewrite lookup_insert_eq. intros [= <-]. cbn.
      destruct (frame_tree_node_to_io_thread_client_ r !! GetFrameTreeNodeId rfh)
        as [e0|] eqn:He0; cbn; [by apply (Hr _ _ He0)|done].
  - rewrite Erase_ftn_map. cbn.
    case_decide; [rewrite lookup_delete_ne by done|rewrite lookup_insert_ne by done];
      apply Hr.
Qed.

Lemma apply_event_slots_ok e r r' :
  slots_ok r → apply_event e r = Some r' → slots_ok r'.
Proof.
  intros Hr. destruct e as [wc|wc jclient|this rfh|this rfh|p parent child]; cbn.
  - unfold RegisterPendingContents. destruct (GetMainFrame wc); [|done].
    by intros [= <-].
  - intros [= <-]. destruct (GetMainFrame wc); [|done].
    by apply Set_rfh_slots_ok.
  - intros [= <-]. by apply Set_rfh_slots_ok.
  - intros [= <-]. by apply Erase_slots_ok.
  - intros [= <-]. unfold SubFrameCreated.
    by destruct (Get_rfh_id (p, parent) r).
Qed.

Lemma run_events_slots_ok es : ∀ r r',
  slots_ok r → run_events es r = Some r' → slots_ok r'.
Proof.
  induction es as [|e es IH]; intros r r' Hr; cbn.
  - by intros [= <-].
  - destruct (apply_event e r) as [r1|] eqn:He; [|done].
    apply IH. by eapply apply_event_slots_ok.
Qed.

Lemma reachable_slots_ok r : reachable r → slots_ok r.
Proof. intros [es Hes]. eapply run_events_slots_ok; [apply slots_ok_fresh|done]. Qed.

(** X7. In every reachable registry a slot has an entry exactly when it
    has a host: no history leaves an entry behind whose last host is
    gone, and a slot with a host answers the lookup by its
    frame-tree-node id. *)
Theorem slot_present_iff_hosted (r : RfhToIoThreadClientMap) (n : Z) :
  reachable r →
  (is_Some (Get_frame_tree_node_id n r) ↔ hosts_of n r ≠ ∅).
Proof.
  intros Hr%reachable_slots_ok.
  rewrite Get_frame_tree_node_id_lookup. unfold hosts_of.
  destruct (frame_tree_node_to_io_thread_client_ r !! n) as [e|] eqn:He; cbn.
  - split; [intros _; by apply (Hr n e)|by eexists].
  - split; [by intros [? ?]|done].
Qed.

Lemma slot_present_iff_hosted_witness :
  let f := {| rfh_ptr := 1; GetProcessID := 2; GetRoutingID := 3;
              GetFrameTreeNodeId := 4 |} in
  let obs := {| web_contents := {| GetMainFrame := Some f |};
                jdelegate_ := Some 7%positive |} in
  hosts_of 4 (RenderFrameCreated obs f g_instance_) ≠ ∅.
Proof.
  intros f obs.
  apply (slot_present_iff_hosted (RenderFrameCreated obs f g_instance_) 4).
  - exists [Ev_RenderFrameCreated obs f]. reflexivity.
  - eexists. reflexivity.
Defined.

(** X8. The lookup by a frame-tree-node id never produces a pending
    handle: in every reachable registry the record of a slot is not
    pending, since only the frame-created callback writes slots;
    pending records live in the frame-identity map alone. *)
Theorem FromID_frame_tree_node_id_never_pending (r : RfhToIoThreadClientMap)
    (env : JavaHeap) (n : Z) (this : XWalkContentsIoThreadClient) (dcheck : bool) :
  reachable r →
  FromID_frame_tree_node_id env n r = Some (this, dcheck) →
  PendingAssociation this = false ∧ dcheck = true.
Proof.
  intros Hr%reachable_slots_ok. unfold FromID_frame_tree_node_id.
  rewrite Get_frame_tree_node_id_lookup.
  destruct (frame_tree_node_to_io_thread_client_ r !! n) as [e|] eqn:He; [|done].
  cbn. destruct (Hr n e He) as [_ Hp]. unfold FromID_found.
  intros [= <- <-]. cbn. by rewrite Hp.
Qed.

Lemma FromID_frame_tree_node_id_never_pending_witness :
  let f := {| rfh_ptr := 1; GetProcessID := 2; GetRoutingID := 3;
              GetFrameTreeNodeId := 4 |} in
  let wc := {| GetMainFrame := Some f |} in
  let env := {| is_alive := λ _, true |} in
  ∃ r this,
    run_events [Ev_RegisterPendingContents wc; Ev_Associate wc (Some 7%positive)]
      g_instance_ = Some r ∧
    FromID_frame_tree_node_id env 4 r = Some (this, true) ∧
    PendingAssociation this = false.
Proof.
  intros f wc env. eexists. eexists. split; [reflexivity|]. split; [reflexivity|].
  refine (proj1 (FromID_frame_tree_node_id_never_pending _ env 4 _ true _ _)).
  - exists [Ev_RegisterPendingContents wc; Ev_Associate wc (Some 7%positive)].
    reflexivity.
  - reflexivity.
Defined.

(** X9. In a reachable registry, a frame-deleted callback for a frame
    that is no host of its slot (one the registry knows by identity only,
    or not at all) fails the assertion of [Erase] and, when assertions
    are compiled out, leaves the frame-tree-node map as it is while it
    removes the entry of the frame's identity. *)
Theorem Erase_not_host (rfh : RenderFrameHost) (r : RfhToIoThreadClientMap) :
  reachable r →
  rfh_ptr rfh ∉ hosts_of (GetFrameTreeNodeId rfh) r →
  Erase rfh r =
    ({| rfh_to_io_thread_client_ :=
          delete (GetRenderFrameHostIdPair rfh) (rfh_to_io_thread_client_ r);
        frame_tree_node_to_io_thread_client_ :=
          frame_tree_node_to_io_thread_client_ r |}, false).
Proof.
  intros Hr%reachable_slots_ok Hnotin.
  rewrite (surjective_pairing (Erase rfh r)). f_equal.
  - apply registry_eq; cbn.
    + apply Erase_rfh_map.
    + apply Erase_ftn_map_not_host; [done|]. intros e He. by apply (Hr _ _ He).
  - rewrite Erase_check. by apply bool_decide_eq_false_2.
Qed.

Lemma Erase_not_host_witness :
  let f := {| rfh_ptr := 1; GetProcessID := 2; GetRoutingID := 3;
              GetFrameTreeNodeId := 4 |} in
  let wc := {| GetMainFrame := Some f |} in
  let pending := {| pending_association := true; io_thread_client := None |} in
  Erase f (Set_rfh_id (2, 3) pending g_instance_) = (g_instance_, false).
Proof.
  intros f wc pending.
  rewrite (Erase_not_host f (Set_rfh_id (2, 3) pending g_instance_)).
  - reflexivity.
  - exists [Ev_RegisterPendingContents wc]. reflexivity.
  - apply not_elem_of_empty.
Defined.

(** ** Records written by identity and by frame *)

(** X10. The sub-frame fast path touches the entry of the child identity
    alone: the frame-tree-node map is as before, the lookup by every
    other identity is as before, and with the child id equal to the
    parent id the registry is as before. *)
Theorem SubFrameCreated_child_key_only (pid parentId childId : Z)
    (r : RfhToIoThreadClientMap) :
  frame_tree_node_to_io_thread_client_ (fst (SubFrameCreated pid parentId childId r))
    = frame_tree_node_to_io_thread_client_ r ∧
  (∀ rfh_id, rfh_id ≠ (pid, childId) →
     Get_rfh_id rfh_id (fst (SubFrameCreated pid parentId childId r))
     = Get_rfh_id rfh_id r) ∧
  fst (SubFrameCreated pid parentId parentId r) = r.
Proof.
  unfold SubFrameCreated. split; [|split].
  - by destruct (Get_rfh_id (pid, parentId) r).
  - intros rfh_id Hne. destruct (Get_rfh_id (pid, parentId) r); [|done].
    unfold Get_rfh_id. cbn. by rewrite lookup_insert_ne.
  - destruct (Get_rfh_id (pid, parentId) r) as [d|] eqn:Hd; [|done]. cbn.
    apply registry_eq; cbn; [|done]. by apply insert_id.
Qed.

Lemma SubFrameCreated_child_key_only_witness :
  let R := {| pending_association := false; io_thread_client := Some 9%positive |} in
  let r := Set_rfh_id (1, 5) R g_instance_ in
  Get_rfh_id (1, 5) (fst (SubFrameCreated 1 5 7 r)) = Some R.
Proof.
  intros R r.
  rewrite (proj1 (proj2 (SubFrameCreated_child_key_only 1 5 7 r)) (1, 5)).
  - reflexivity.
  - discriminate.
Defined.

(** X11. Two frames created in the same slot under different identities:
    each identity keeps the record of the observer that created its
    frame, while the slot holds both frames and the record of the
    observer that wrote last.  The lookup by the identity of the first
    frame and the lookup by its frame-tree-node id then return the
    records of different observers. *)
Theorem RenderFrameCreated_shared_slot (obs1 obs2 : ClientMapEntryUpdater)
    (f1 f2 : RenderFrameHost) (r : RfhToIoThreadClientMap) :
  GetFrameTreeNodeId f1 = GetFrameTreeNodeId f2 →
  GetRenderFrameHostIdPair f1 ≠ GetRenderFrameHostIdPair f2 →
  let r' := RenderFrameCreated obs2 f2 (RenderFrameCreated obs1 f1 r) in
  Get_rfh_id (GetRenderFrameHostIdPair f1) r' =
    Some {| pending_association := false; io_thread_client := jdelegate_ obs1 |} ∧
  Get_rfh_id (GetRenderFrameHostIdPair f2) r' =
    Some {| pending_association := false; io_thread_client := jdelegate_ obs2 |} ∧
  Get_frame_tree_node_id (GetFrameTreeNodeId f1) r' =
    Some {| pending_association := false; io_thread_client := jdelegate_ obs2 |} ∧
  hosts_of (GetFrameTreeNodeId f1) r' =
    {[rfh_ptr f2; rfh_ptr f1]} ∪ hosts_of (GetFrameTreeNodeId f1) r.
Proof.
  intros Hn Hid. unfold RenderFrameCreated. cbn. split; [|split; [|split]].
  - unfold Get_rfh_id. rewrite Set_rfh_rfh_map, lookup_insert_ne by done.
    apply Get_rfh_id_Set_rfh.
  - apply Get_rfh_id_Set_rfh.
  - rewrite Hn. apply Get_frame_tree_node_id_Set_rfh.
  - rewrite Hn, hosts_of_Set_rfh, <- Hn, hosts_of_Set_rfh. set_solver.
Qed.

Lemma RenderFrameCreated_shared_slot_witness :
  let f1 := {| rfh_ptr := 1; GetProcessID := 3; GetRoutingID := 10;
               GetFrameTreeNodeId := 7 |} in
  let f2 := {| rfh_ptr := 2; GetProcessID := 4; GetRoutingID := 11;
               GetFrameTreeNodeId := 7 |} in
  let obs1 := {| web_contents := {| GetMainFrame := Some f1 |};
                 jdelegate_ := Some 5%positive |} in
  let obs2 := {| web_contents := {| GetMainFrame := Some f2 |};
                 jdelegate_ := Some 6%positive |} in
  let r' := RenderFrameCreated obs2 f2 (RenderFrameCreated obs1 f1 g_instance_) in
  Get_rfh_id (3, 10) r' =
    Some {| pending_association := false; io_thread_client := Some 5%positive |} ∧
  Get_frame_tree_node_id 7 r' =
    Some {| pending_association := false; io_thread_client := Some 6%positive |}.
Proof.
  intros f1 f2 obs1 obs2 r'.
  destruct (RenderFrameCreated_shared_slot obs1 obs2 f1 f2 g_instance_)
    as (H1 & _ & H2 & _).
  - reflexivity.
  - discriminate.
  - split; [exact H1|exact H2].
Defined.

(** ** Handles with a delegate *)

(** X12. After the association of a live delegate [D] with a container
    that has a main frame, the handle the lookup by the identity of that
    frame produces forwards every query to [D]: each of the five
    parameterless queries returns what [D] answers and makes exactly one
    call into the managed runtime, on [D]. *)
Theorem Associate_queries_forward (LOAD_DEFAULT : CacheMode) (java : JavaClient)
    (env : JavaHeap) (wc : WebContents) (F1 : RenderFrameHost) (D : jobject)
    (r : RfhToIoThreadClientMap) :
  GetMainFrame wc = Some F1 →
  is_alive env D = true →
  ∃ this,
    FromID env (GetProcessID F1) (GetRoutingID F1)
      (snd (fst (Associate wc (Some D) r))) = Some (this, true) ∧
    GetCacheMode LOAD_DEFAULT java this =
      (Java_getCacheMode java D, [Call_getCacheMode D]) ∧
    ShouldBlockContentUrls java this =
      (Java_shouldBlockContentUrls java D, [Call_shouldBlockContentUrls D]) ∧
    ShouldBlockFileUrls java this =
      (Java_shouldBlockFileUrls java D, [Call_shouldBlockFileUrls D]) ∧
    ShouldBlockNetworkLoads java this =
      (Java_shouldBlockNetworkLoads java D, [Call_shouldBlockNetworkLoads D]) ∧
    ShouldAcceptThirdPartyCookies java this =
      (Java_shouldAcceptThirdPartyCookies java D,
       [Call_shouldAcceptThirdPartyCookies D]).
Proof.
  intros Hmain Halive.
  exists {| pending_association_ := false; java_object_ := Some D |}.
  split; [|done].
  unfold Associate, ClientMapEntryUpdater_new. rewrite Hmain. cbn [fst snd].
  unfold FromID, RenderFrameCreated. fold (GetRenderFrameHostIdPair F1).
  rewrite Get_rfh_id_Set_rfh. unfold FromID_found. cbn. by rewrite Halive.
Qed.

Lemma Associate_queries_forward_witness :
  let F1 := {| rfh_ptr := 1; GetProcessID := 2; GetRoutingID := 3;
               GetFrameTreeNodeId := 4 |} in
  let wc := {| GetMainFrame := Some F1 |} in
  let env := {| is_alive := λ _, true |} in
  let java := {| Java_getCacheMode := λ _, 2;
                 Java_shouldInterceptRequest := λ o _ _ _ _ _ _, Some o;
                 Java_shouldBlockContentUrls := λ _, true;
                 Java_shouldBlockFileUrls := λ _, true;
                 Java_shouldBlockNetworkLoads := λ _, true;
                 Java_shouldAcceptThirdPartyCookies := λ _, true |} in
  ∃ this,
    FromID env 2 3 (snd (fst (Associate wc (Some 6%positive) g_instance_)))
      = Some (this, true) ∧
    ShouldBlockNetworkLoads java this = (true, [Call_shouldBlockNetworkLoads 6%positive]).
Proof.
  intros F1 wc env java.
  destruct (Associate_queries_forward (-1) java env wc F1 6%positive g_instance_)
    as (this & H1 & _ & _ & _ & H2 & _).
  - reflexivity.
  - reflexivity.
  - exists this. split; [exact H1|exact H2].
Defined.

(** ** What the delegate is handed *)

Lemma header_arrays (headers : HttpRequestHeaders) :
  length (fst <$> headers) = length (snd <$> headers) ∧
  zip (fst <$> headers) (snd <$> headers) = headers.
Proof. split; [by rewrite !length_fmap|apply zip_fst_snd]. Qed.

(** X13. With a delegate [obj], the interception query makes exactly one
    call, on [obj].  It hands over the location it was given (not the
    URL of the request), the request's method, and two arrays of equal
    length that pair up, name by value and in order, to the full request
    headers, or to the extra request headers when the full ones are not
    available.  Its result is absent exactly when the delegate answers
    null, and otherwise wraps the object the delegate answered. *)
Theorem ShouldInterceptRequest_marshalling (java : JavaClient)
    (this : XWalkContentsIoThreadClient) (obj : jobject)
    (location : string) (request : URLRequest) :
  java_object_ this = Some obj →
  ∃ is_main has_gesture names values,
    snd (ShouldInterceptRequest java this location request) =
      [Call_shouldInterceptRequest obj location is_main has_gesture
         (method request) names values] ∧
    length names = length values ∧
    zip names values =
      default (extra_request_headers request) (GetFullRequestHeaders request) ∧
    (ForRequest request = None → is_main = false ∧ has_gesture = false) ∧
    fst (ShouldInterceptRequest java this location request) =
      (λ o, {| java_response := o |}) <$>
        Java_shouldInterceptRequest java obj location is_main has_gesture
          (method request) names values.
Proof.
  intros Hobj. unfold ShouldInterceptRequest. rewrite Hobj. cbn.
  eexists _, _, _, _. split; [reflexivity|].
  destruct (header_arrays (request_headers request)) as [Hlen Hzip].
  split; [exact Hlen|]. split.
  - rewrite Hzip. unfold request_headers.
    by destruct (GetFullRequestHeaders request).
  - split.
    + unfold request_is_main_frame, request_has_user_gesture. by intros ->.
    + by destruct (Java_shouldInterceptRequest _ _ _ _ _ _ _ _).
Qed.

Lemma ShouldInterceptRequest_marshalling_witness :
  let java := {| Java_getCacheMode := λ _, 2;
                 Java_shouldInterceptRequest := λ o _ _ _ _ _ _, Some o;
                 Java_shouldBlockContentUrls := λ _, true;
                 Java_shouldBlockFileUrls := λ _, true;
                 Java_shouldBlockNetworkLoads := λ _, true;
                 Java_shouldAcceptThirdPartyCookies := λ _, true |} in
  let this := {| pending_association_ := false; java_object_ := Some 6%positive |} in
  let request := {| url_spec := "http://a/"; method := "GET";
                    GetFullRequestHeaders := None;
                    extra_request_headers := [("Accept", "*/*"); ("X", "1")];
                    ForRequest := None |} in
  ∃ names values,
    snd (ShouldInterceptRequest java this "http://b/" request) =
      [Call_shouldInterceptRequest 6%positive "http://b/" false false "GET"
         names values] ∧
    zip names values = [("Accept", "*/*"); ("X", "1")].
Proof.
  intros java this request.
  destruct (ShouldInterceptRequest_marshalling java this 6%positive "http://b/" request)
    as (is_main & has_gesture & names & values & Hcall & _ & Hzip & Hinfo & _).
  - reflexivity.
  - destruct (Hinfo eq_refl) as [-> ->].
    exists names, values. split; [exact Hcall|exact Hzip].
Defined.

(** X14. With a delegate [obj], the notification of received response
    headers makes exactly one call, on [obj].  The request is handed over
    as the fields of the [WebResourceRequest] built from it (with the
    request's own URL), followed by the MIME type and the charset, the
    status code, the status text, and two arrays of equal length that
    pair up, in order, to the header lines of the response. *)
Theorem OnReceivedResponseHeaders_marshalling (this : XWalkContentsIoThreadClient)
    (obj : jobject) (request : URLRequest) (response_headers : HttpResponseHeaders) :
  java_object_ this = Some obj →
  let web_request := WebResourceRequest_new request in
  ∃ response_header_names response_header_values,
    OnReceivedResponseHeaders this request response_headers =
      [Call_onReceivedResponseHeaders obj
         (jstring_url web_request) (is_main_frame web_request)
         (has_user_gesture web_request) (jstring_method web_request)
         (jstringArray_header_names web_request)
         (jstringArray_header_values web_request)
         (fst (GetMimeTypeAndCharset response_headers))
         (snd (GetMimeTypeAndCharset response_headers))
         (response_code response_headers) (GetStatusText response_headers)
         response_header_names response_header_values] ∧
    jstring_url web_request = url_spec request ∧
    length (jstringArray_header_names web_request)
      = length (jstringArray_header_values web_request) ∧
    length response_header_names = length response_header_values ∧
    zip response_header_names response_header_values
      = EnumerateHeaderLines response_headers.
Proof.
  intros Hobj. cbn. unfold OnReceivedResponseHeaders. rewrite Hobj.
  destruct (GetMimeTypeAndCharset response_headers) as [mime_type encoding]. cbn.
  eexists _, _. split; [reflexivity|]. split; [done|].
  split; [by rewrite !length_fmap|]. apply header_arrays.
Qed.

Lemma OnReceivedResponseHeaders_marshalling_witness :
  let this := {| pending_association_ := false; java_object_ := Some 6%positive |} in
  let request := {| url_spec := "http://a/"; method := "GET";
                    GetFullRequestHeaders := Some [("Host", "a")];
                    extra_request_headers := [("X", "1")];
                    ForRequest := Some {| GetResourceType := 0;
                                          HasUserGesture := true |} |} in
  let response := {| EnumerateHeaderLines := [("Content-Type", "text/html")];
                     GetMimeTypeAndCharset := ("text/html", "utf-8");
                     response_code := 200; GetStatusText := "OK" |} in
  ∃ names values,
    OnReceivedResponseHeaders this request response =
      [Call_onReceivedResponseHeaders 6%positive "http://a/" true true "GET"
         ["Host"] ["a"] "text/html" "utf-8" 200 "OK" names values] ∧
    zip names values = [("Content-Type", "text/html")].
Proof.
  intros this request response.
  destruct (OnReceivedResponseHeaders_marshalling this 6%positive request response)
    as (names & values & Hcall & _ & _ & _ & Hzip).
  - reflexivity.
  - exists names, values. split; [exact Hcall|exact Hzip].
Defined.

(** * Further properties of the registry under concurrent callers *)

Lemma step_fun_complete i cfg cfg' : step cfg i cfg' → step_fun i cfg = Some cfg'.
Proof.
  intros Hs. unfold step_fun.
  destruct Hs as [cfg i c cs Ht|cfg i k cs Ht Hl|cfg i k cs Ht Hl|cfg i ins k cs Ht Ha Hr];
    rewrite Ht; cbn.
  - done.
  - by rewrite Hl.
  - by rewrite decide_True.
  - by destruct ins.
Qed.

(** Every execution is the run of a schedule. *)
Lemma steps_run_schedule cfg cfg' :
  steps cfg cfg' ↔ ∃ schedule, run_schedule schedule cfg = Some cfg'.
Proof.
  split.
  - induction 1 as [cfg|cfg1 cfg2 cfg3 i _ [schedule IH] Hs].
    + by exists [].
    + exists (schedule ++ [i]). revert cfg1 IH.
      induction schedule as [|j schedule IHs]; intros cfg1; cbn.
      * intros [= ->]. by rewrite (step_fun_complete _ _ _ Hs).
      * destruct (step_fun j cfg1); [apply IHs|done].
  - intros [schedule Hrun]. by eapply run_schedule_sound.
Qed.

(** The rest of a body behind its [Acquire] is not the start of a
    body. *)
Lemma body_suffix_inside c pre cur :
  body c = Acquire :: pre ++ cur → cur ≠ [] →
  ¬ outside {| current := cur; todo := [] |} ∧
  ∃ ins k, cur = ins :: k ∧ ins ≠ Acquire.
Proof.
  intros Hbody Hne. destruct cur as [|ins k]; [done|]. split.
  - intros [Hc|[c' Hc]]; cbn in Hc; [done|].
    destruct c'; cbn in Hc; simplify_eq; split_body Hbody c pre.
  - exists ins, k. split; [done|]. intros ->. split_body Hbody c pre.
Qed.

Lemma outside_current t1 t2 : current t1 = current t2 → outside t1 → outside t2.
Proof. unfold outside. by intros ->. Qed.

(** X15. Mutual exclusion.  In every configuration the callers can
    reach, at most one thread is inside a critical section (past the
    [Acquire] of a method and not yet past its [Release]), that thread is
    the one the lock names, and the thread the lock names is inside. *)
Theorem mutual_exclusion (r0 : RfhToIoThreadClientMap) (progs : list (list Call))
    (cfg : Config) :
  steps (init_config r0 progs) cfg →
  (∀ i j ti tj,
     threads cfg !! i = Some ti → threads cfg !! j = Some tj →
     ¬ outside ti → ¬ outside tj → i = j ∧ map_lock_ cfg = Some i) ∧
  (∀ h, map_lock_ cfg = Some h →
     ∃ t, threads cfg !! h = Some t ∧ ¬ outside t).
Proof.
  intros Hsteps. destruct (config_inv_steps _ _ _ Hsteps) as [done Hinv].
  destruct (map_lock_ cfg) as [h|].
  - destruct Hinv as [(t & c & pre & Hh & Hbody & Hne & Hreg) Hout]. split.
    + intros i j ti tj Hi Hj Hni Hnj.
      destruct (decide (i = h)) as [->|Hih]; [|by destruct Hni; eapply Hout].
      destruct (decide (j = h)) as [->|Hjh]; [done|by destruct Hnj; eapply Hout].
    + intros h' [= <-]. exists t. split; [done|].
      destruct (body_suffix_inside _ _ _ Hbody Hne) as [Hin _].
      intros Ho. apply Hin. by eapply outside_current; [|exact Ho].
  - destruct Hinv as [Hreg Hout]. split; [|done].
    intros i j ti tj Hi Hj Hni. destruct Hni. by eapply Hout.
Qed.

Lemma mutual_exclusion_witness :
  let f := {| rfh_ptr := 1; GetProcessID := 2; GetRoutingID := 3;
              GetFrameTreeNodeId := 4 |} in
  let d := {| pending_association := false; io_thread_client := Some 5%positive |} in
  let progs := [[Call_Set_rfh f d]; [Call_Erase f]] in
  ∃ cfg,
    run_schedule [0; 1; 0; 0]%nat (init_config g_instance_ progs) = Some cfg ∧
    ∃ t, threads cfg !! 0%nat = Some t ∧ ¬ outside t.
Proof.
  intros f d progs. eexists. split; [reflexivity|].
  match goal with |- ∃ t, threads ?c !! _ = _ ∧ _ => set (cfg := c) end.
  apply (proj2 (mutual_exclusion g_instance_ progs cfg
                  (run_schedule_sound [0; 1; 0; 0]%nat
                     (init_config g_instance_ progs) cfg eq_refl))
               0%nat eq_refl).
Defined.

(** ** Progress and termination *)

Lemma finished_or_not (ts : list Thread) :
  Forall finished ts ∨ ∃ i t, ts !! i = Some t ∧ ¬ finished t.
Proof.
  induction ts as [|t ts [IH|(i & t' & Hi & Hn)]].
  - by left.
  - destruct t as [[|ins k] [|c cs]].
    + left. by constructor.
    + right. exists 0%nat, {| current := []; todo := c :: cs |}.
      split; [done|]. by intros [_ ?].
    + right. exists 0%nat, {| current := ins :: k; todo := [] |}.
      split; [done|]. by intros [? _].
    + right. exists 0%nat, {| current := ins :: k; todo := c :: cs |}.
      split; [done|]. by intros [? _].
  - right. by exists (S i), t'.
Qed.

(** A configuration satisfying the invariant is finished or can move. *)
Lemma config_inv_progress r0 cfg :
  config_inv r0 cfg →
  (Forall finished (threads cfg) ∧ map_lock_ cfg = None) ∨
  ∃ i cfg', step cfg i cfg'.
Proof.
  intros [done Hinv]. destruct (map_lock_ cfg) as [h|] eqn:Hl.
  - right. destruct Hinv as [(t & c & pre & Hh & Hbody & Hne & Hreg) Hout].
    destruct (body_suffix_inside _ _ _ Hbody Hne) as [_ (ins & k & Hcur & Hins)].
    destruct t as [cur td]. cbn in Hcur. subst cur.
    exists h.
    assert (ins = Release ∨ ins ≠ Release) as [->|Hrel]
      by (destruct ins; (by left) || (by right)).
    + eexists. by eapply step_release.
    + eexists. by eapply step_instr.
  - destruct Hinv as [Hreg Hout].
    destruct (finished_or_not (threads cfg)) as [Hfin|(i & t & Hi & Hn)]; [by left|].
    right. exists i. destruct t as [cur td].
    destruct (Hout i _ Hi) as [Hc|[c Hc]]; cbn in Hc; subst cur.
    + destruct td as [|c cs]; [by destruct Hn|].
      eexists. by eapply step_call.
    + assert (∃ k, body c = Acquire :: k) as [k Hk] by (destruct c; by eexists).
      rewrite Hk in Hi. eexists. by eapply step_acquire.
Qed.

Lemma sum_list_with_insert_thread (f : Thread → nat) (ts : list Thread) i t t0 :
  ts !! i = Some t0 →
  (sum_list_with f (<[i := t]> ts) + f t0 = sum_list_with f ts + f t)%nat.
Proof.
  revert i. induction ts as [|t1 ts IH]; intros [|i] Hi; simpl in Hi |- *;
    simplify_eq.
  - lia.
  - specialize (IH i Hi). lia.
Qed.

(** Every step uses up one unit of work. *)
Lemma step_work cfg i cfg' : step cfg i cfg' → work cfg = S (work cfg').
Proof.
  intros Hs. unfold work.
  destruct Hs as [cfg i c cs Ht|cfg i k cs Ht Hl|cfg i k cs Ht Hl|cfg i ins k cs Ht Ha Hr];
    cbn;
    match goal with
    | |- context [<[i := ?t]> _] =>
        pose proof (sum_list_with_insert_thread thread_work _ i t _ Ht) as Hsum
    end;
    unfold thread_work, call_work in *; cbn in *; lia.
Qed.

Lemma run_schedule_work schedule : ∀ cfg cfg',
  run_schedule schedule cfg = Some cfg' →
  work cfg = (length schedule + work cfg')%nat.
Proof.
  induction schedule as [|i schedule IH]; intros cfg cfg'; cbn.
  - by intros [= <-].
  - destruct (step_fun i cfg) as [cfg1|] eqn:Hs; [|done].
    intros Hrun. apply step_fun_sound, step_work in Hs.
    apply IH in Hrun. lia.
Qed.

Lemma work_init r0 progs :
  work (init_config r0 progs) = sum_list_with (sum_list_with call_work) progs.
Proof.
  unfold work. cbn. induction progs as [|p progs IH]; cbn; [done|].
  by rewrite IH.
Qed.

Lemma call_work_bound c : (4 ≤ call_work c ≤ 5)%nat.
Proof. destruct c; unfold call_work; simpl; lia. Qed.

Lemma work_bound (progs : list (list Call)) :
  (sum_list_with (sum_list_with call_work) progs
   ≤ 5 * sum_list_with length progs)%nat.
Proof.
  induction progs as [|p progs IH]; simpl; [lia|].
  assert (sum_list_with call_work p ≤ 5 * length p)%nat.
  { clear. induction p as [|c p IH]; simpl; [lia|].
    pose proof (call_work_bound c). unfold call_work in *. lia. }
  lia.
Qed.

Lemma work_zero_finished cfg : work cfg = 0%nat → Forall finished (threads cfg).
Proof.
  unfold work. induction (threads cfg) as [|t ts IH]; simpl; [done|].
  intros H. constructor; [|apply IH; lia].
  destruct t as [[|ins k] [|c cs]]; unfold thread_work, call_work in H; simpl in H;
    try lia. done.
Qed.

(** X16. The callers never deadlock.  A configuration they can reach is
    either finished (every thread has returned from its last call, and
    then the lock is free and no thread can move) or some thread can
    take a step. *)
Theorem no_deadlock (r0 : RfhToIoThreadClientMap) (progs : list (list Call))
    (cfg : Config) :
  steps (init_config r0 progs) cfg →
  (Forall finished (threads cfg) ∧ map_lock_ cfg = None ∧
   ∀ i cfg', ¬ step cfg i cfg') ∨
  (∃ i cfg', step cfg i cfg').
Proof.
  intros Hsteps%config_inv_steps.
  destruct (config_inv_progress _ _ Hsteps) as [[Hfin Hl]|Hstep]; [left|by right].
  split; [done|]. split; [done|].
  intros i cfg' Hs.
  assert (∃ t, threads cfg !! i = Some t ∧ ¬ finished t) as (t & Ht & Hn).
  { destruct Hs; eexists; (split; [eassumption|]); by intros [? ?]. }
  apply Hn. eapply Forall_lookup_1; [exact Hfin|exact Ht].
Qed.

Lemma no_deadlock_witness :
  let f := {| rfh_ptr := 1; GetProcessID := 2; GetRoutingID := 3;
              GetFrameTreeNodeId := 4 |} in
  let d := {| pending_association := false; io_thread_client := Some 5%positive |} in
  let progs := [[Call_Set_rfh f d]; [Call_Get_frame_tree_node_id 4]] in
  ∃ cfg,
    run_schedule [0; 1; 0; 0]%nat (init_config g_instance_ progs) = Some cfg ∧
    step_fun 1%nat cfg = None ∧
    ∃ i cfg', step cfg i cfg'.
Proof.
  intros f d progs. eexists. split; [reflexivity|]. split; [reflexivity|].
  match goal with |- ∃ i cfg', step ?c i cfg' => set (cfg := c) end.
  destruct (no_deadlock g_instance_ progs cfg
              (run_schedule_sound [0; 1; 0; 0]%nat
                 (init_config g_instance_ progs) cfg eq_refl))
    as [(_ & Hl & _)|Hstep].
  - discriminate Hl.
  - exact Hstep.
Defined.

Lemma finished_work_zero cfg : Forall finished (threads cfg) → work cfg = 0%nat.
Proof.
  unfold work. induction 1 as [|t ts [Hc Ht] _ IH]; simpl; [done|].
  rewrite IH. unfold thread_work. by rewrite Hc, Ht.
Qed.

(** X17. Every schedule the callers can run from the start is short: its
    length and the work left in the configuration it reaches add up to
    the work of the programs (one step to enter each call and one for
    each instruction of its body), so no schedule takes more than five
    steps for each call, and a schedule that uses up the work leaves
    every thread returned from its last call. *)
Theorem schedule_length (r0 : RfhToIoThreadClientMap) (progs : list (list Call))
    (schedule : list nat) (cfg : Config) :
  run_schedule schedule (init_config r0 progs) = Some cfg →
  (length schedule + work cfg)%nat = sum_list_with (sum_list_with call_work) progs ∧
  (length schedule ≤ 5 * sum_list_with length progs)%nat ∧
  (length schedule = sum_list_with (sum_list_with call_work) progs →
   Forall finished (threads cfg)).
Proof.
  intros Hrun%run_schedule_work. rewrite work_init in Hrun.
  pose proof (work_bound progs). split; [lia|]. split; [lia|].
  intros Hlen. apply work_zero_finished. lia.
Qed.

Lemma schedule_length_witness :
  let f := {| rfh_ptr := 1; GetProcessID := 2; GetRoutingID := 3;
              GetFrameTreeNodeId := 4 |} in
  let d := {| pending_association := false; io_thread_client := Some 5%positive |} in
  let progs := [[Call_Set_rfh f d]; [Call_Get_frame_tree_node_id 4]] in
  ∃ cfg,
    run_schedule [0; 1; 0; 0; 0; 0; 1; 1; 1]%nat (init_config g_instance_ progs)
      = Some cfg ∧
    Forall finished (threads cfg).
Proof.
  intros f d progs. eexists. split; [reflexivity|].
  match goal with |- Forall finished (threads ?c) => set (cfg := c) end.
  apply (schedule_length g_instance_ progs [0; 1; 0; 0; 0; 0; 1; 1; 1]%nat cfg eq_refl).
  reflexivity.
Defined.

Lemma config_inv_complete r0 : ∀ n cfg,
  work cfg = n → config_inv r0 cfg →
  ∃ schedule cfg_end,
    run_schedule schedule cfg = Some cfg_end ∧ length schedule = n ∧
    Forall finished (threads cfg_end) ∧ map_lock_ cfg_end = None ∧
    config_inv r0 cfg_end.
Proof.
  induction n as [|n IH]; intros cfg Hw Hinv;
    destruct (config_inv_progress _ _ Hinv) as [[Hfin Hl]|(i & cfg' & Hs)].
  - by exists [], cfg.
  - apply step_work in Hs. lia.
  - apply finished_work_zero in Hfin. lia.
  - pose proof (step_work _ _ _ Hs) as Hw'.
    destruct (IH cfg' ltac:(lia) (config_inv_step _ _ _ _ Hinv Hs))
      as (schedule & cfg_end & Hrun & Hlen & Hend).
    exists (i :: schedule), cfg_end. simpl.
    rewrite (step_fun_complete _ _ _ Hs). split; [done|]. split; [by rewrite Hlen|done].
Qed.

(** X18. Every call returns.  From every configuration the callers can
    reach, there is a schedule, as long as the work left, that runs
    every thread to the return of its last call; the lock is then free
    and the registry is the outcome of a sequence of whole method
    calls. *)
Theorem every_execution_completes (r0 : RfhToIoThreadClientMap)
    (progs : list (list Call)) (cfg : Config) :
  steps (init_config r0 progs) cfg →
  ∃ schedule cfg_end,
    run_schedule schedule cfg = Some cfg_end ∧
    length schedule = work cfg ∧
    Forall finished (threads cfg_end) ∧
    map_lock_ cfg_end = None ∧
    ∃ done, registry cfg_end = run_calls done r0.
Proof.
  intros Hinv%config_inv_steps.
  destruct (config_inv_complete r0 (work cfg) cfg eq_refl Hinv)
    as (schedule & cfg_end & Hrun & Hlen & Hfin & Hl & [done Hend]).
  exists schedule, cfg_end. repeat (split; [done|]).
  rewrite Hl in Hend. exists done. by destruct Hend.
Qed.

Lemma every_execution_completes_witness :
  let f := {| rfh_ptr := 1; GetProcessID := 2; GetRoutingID := 3;
              GetFrameTreeNodeId := 4 |} in
  let d := {| pending_association := false; io_thread_client := Some 5%positive |} in
  let progs := [[Call_Set_rfh f d]; [Call_Erase f]] in
  ∃ cfg schedule cfg_end,
    run_schedule [0; 1; 0; 0]%nat (init_config g_instance_ progs) = Some cfg ∧
    run_schedule schedule cfg = Some cfg_end ∧
    Forall finished (threads cfg_end).
Proof.
  intros f d progs. eexists.
  assert (∀ cfg, run_schedule [0; 1; 0; 0]%nat (init_config g_instance_ progs) = Some cfg →
            ∃ schedule cfg_end, run_schedule schedule cfg = Some cfg_end ∧
              Forall finished (threads cfg_end)) as H.
  { intros cfg Hcfg.
    destruct (every_execution_completes g_instance_ progs cfg
                (run_schedule_sound _ _ _ Hcfg))
      as (schedule & cfg_end & Hrun & _ & Hfin & _).
    by exists schedule, cfg_end. }
  destruct (H _ eq_refl) as (schedule & cfg_end & Hrun & Hfin).
  exists schedule, cfg_end. split; [reflexivity|]. split; [exact Hrun|exact Hfin].
Defined.

(** ** Linearizability *)

Lemma concat_insert_tail (rem : list (list Call)) i c cs :
  rem !! i = Some (c :: cs) → concat rem ≡ₚ c :: concat (<[i := cs]> rem).
Proof.
  revert i. induction rem as [|l rem IH]; intros [|i] Hi; simpl in Hi |- *;
    simplify_eq.
  - done.
  - rewrite (IH i Hi). by rewrite Permutation_middle.
Qed.

Lemma concat_all_nil (rem : list (list Call)) :
  (∀ j l, rem !! j = Some l → l = []) → concat rem = [].
Proof.
  induction rem as [|l rem IH]; intros H; simpl; [done|].
  rewrite (H 0%nat l eq_refl). simpl. apply IH. intros j l'. apply (H (S j)).
Qed.

Lemma body_head_Acquire c : ∃ k, body c = Acquire :: k.
Proof. destruct c; by eexists. Qed.

Lemma linear_inv_init r0 progs : linear_inv r0 progs (init_config r0 progs).
Proof.
  exists [], progs. simpl. split; [by rewrite length_fmap|].
  split; [|split; [done|split; [done|done]]].
  intros j t Ht. apply list_lookup_fmap_Some in Ht as (p & -> & Hp).
  exists p. split; [done|]. by left.
Qed.

(** The other threads' share of the invariant does not depend on what
    the moving thread changes. *)
Lemma thread_calls_other r0 done done' cfg cfg' i j t l :
  j ≠ i →
  (map_lock_ cfg = None ∨ map_lock_ cfg = Some i) →
  thread_calls r0 done cfg j t l → thread_calls r0 done' cfg' j t l.
Proof.
  intros Hji Hl [H|(c & Hc & [H|[Hlock _]])].
  - by left.
  - right. exists c. split; [done|by left].
  - destruct Hl as [Hl|Hl]; rewrite Hl in Hlock; by simplify_eq.
Qed.

Lemma thread_calls_same r0 done cfg cfg' j t l :
  map_lock_ cfg' = map_lock_ cfg → registry cfg' = registry cfg →
  thread_calls r0 done cfg j t l → thread_calls r0 done cfg' j t l.
Proof. unfold thread_calls. by intros -> ->. Qed.

Lemma linear_inv_step r0 progs cfg i cfg' :
  linear_inv r0 progs cfg → step cfg i cfg' → linear_inv r0 progs cfg'.
Proof.
  intros (done & rem & Hlen & Hthreads & Hfree & Hheld & Hperm) Hstep.
  destruct Hstep as [cfg i c cs Ht|cfg i k cs Ht Hl|cfg i k cs Ht Hl|cfg i ins k cs Ht Ha Hr];
    destruct (Hthreads i _ Ht) as (li & Hli & Hi); cbn in Hi.
  - (* the thread enters a method *)
    assert (li = c :: cs) as ->.
    { destruct Hi as [[_ ?]|(c' & _ & [H|(_ & pre & _ & H & _)])]; [done| |done].
      by destruct c'. }
    exists done, rem. cbn. split; [by rewrite length_insert|].
    split; [|split; [done|split; [|done]]].
    + intros j t. rewrite (lookup_insert_thread _ _ _ _ _ Ht).
      case_decide as Hij.
      * subst j. intros [= <-]. exists (c :: cs). split; [done|].
        right. exists c. split; [done|by left].
      * intros Hj. destruct (Hthreads j t Hj) as (l & Hl & HR).
        exists l. split; [done|]. by eapply thread_calls_same; [| |exact HR].
    + intros h Hh. destruct (Hheld h Hh) as (t & Hth & Hne & Hnb).
      assert (i ≠ h) by (intros ->; rewrite Ht in Hth; by simplify_eq).
      exists t. by rewrite (lookup_insert_thread _ _ _ _ _ Ht), decide_False.
  - (* the thread takes the free lock *)
    assert (∃ c, li = c :: cs ∧ body c = Acquire :: k) as (c & -> & Hbody).
    { destruct Hi as [[? _]|(c & ? & [H|(Hlock & _)])]; [done| |congruence].
      by exists c. }
    exists done, rem. cbn. split; [by rewrite length_insert|].
    split; [|split; [done|split; [|done]]].
    + intros j t. rewrite (lookup_insert_thread _ _ _ _ _ Ht).
      case_decide as Hij.
      * subst j. intros [= <-]. exists (c :: cs). split; [done|].
        right. exists c. split; [done|]. right. split; [done|].
        exists []. cbn. split; [done|]. split; [by apply (body_tail c)|by apply Hfree].
      * intros Hj. destruct (Hthreads j t Hj) as (l & Hl' & HR).
        exists l. split; [done|]. eapply (thread_calls_other _ _ _ _ _ i); [done| |exact HR].
        by left.
    + intros h [= <-]. eexists.
      rewrite (lookup_insert_thread _ _ _ _ _ Ht), decide_True by done.
      split; [done|]. cbn.
      destruct (body_suffix_inside c [] k Hbody (body_tail c k Hbody)) as [Hin _].
      split; [by apply (body_tail c)|].
      intros c' Hc'. apply Hin. right. by exists c'.
  - (* the thread gives the lock back *)
    assert (∃ c, li = c :: cs ∧ k = [] ∧
              registry cfg = run_call c (run_calls done r0)) as (c & -> & -> & Hreg).
    { destruct Hi as [[? _]|(c & ? & [H|(_ & pre & Hbody & _ & Hreg)])]; [done| |].
      - by destruct c.
      - exists c. apply body_at_Release in Hbody as [-> Hrun].
        by rewrite <- Hrun. }
    exists (done ++ [c]), (<[i := cs]> rem). cbn.
    split; [by rewrite !length_insert|].
    split; [|split; [|split; [done|]]].
    + intros j t. rewrite (lookup_insert_thread _ _ _ _ _ Ht).
      case_decide as Hij.
      * subst j. intros [= <-]. exists cs.
        split; [apply list_lookup_insert_eq; by eapply lookup_lt_Some|by left].
      * intros Hj. destruct (Hthreads j t Hj) as (l & Hl' & HR).
        exists l. split; [by rewrite list_lookup_insert_ne|].
        eapply (thread_calls_other _ _ _ _ _ i); [done| |exact HR]. by right.
    + intros _. unfold run_calls. rewrite foldl_app. by cbn.
    + rewrite <- Hperm, (concat_insert_tail rem i c cs Hli).
      rewrite <- app_assoc. done.
  - (* the thread runs a statement on the maps *)
    assert (∃ c pre, li = c :: cs ∧ map_lock_ cfg = Some i ∧
              body c = Acquire :: pre ++ ins :: k ∧
              registry cfg = exec_instrs pre (run_calls done r0))
      as (c & pre & -> & Hl & Hbody & Hreg).
    { destruct Hi as [[? _]|(c & ? & [H|(Hl & pre & Hbody & _ & Hreg)])]; [done| |].
      - destruct c; cbn in H; by simplify_eq.
      - by exists c, pre. }
    assert (body c = Acquire :: (pre ++ [ins]) ++ k) as Hbody'
      by (by rewrite <- app_assoc).
    assert (k ≠ []) as Hk by (by eapply body_at_other).
    exists done, rem. cbn. split; [by rewrite length_insert|].
    split; [|split; [by rewrite Hl|split; [|done]]].
    + intros j t. rewrite (lookup_insert_thread _ _ _ _ _ Ht).
      case_decide as Hij.
      * subst j. intros [= <-]. exists (c :: cs). split; [done|].
        right. exists c. split; [done|]. right. split; [done|].
        exists (pre ++ [ins]). cbn. split; [done|]. split; [done|].
        unfold exec_instrs. rewrite foldl_app. cbn. by rewrite Hreg.
      * intros Hj. destruct (Hthreads j t Hj) as (l & Hl' & HR).
        exists l. split; [done|].
        eapply (thread_calls_other _ _ _ _ _ i); [done| |exact HR]. by right.
    + intros h Hh. rewrite Hl in Hh. simplify_eq. eexists.
      rewrite (lookup_insert_thread _ _ _ _ _ Ht), decide_True by done.
      split; [done|]. cbn. split; [done|].
      destruct (body_suffix_inside c (pre ++ [ins]) k Hbody' Hk) as [Hin _].
      intros c' Hc'. apply Hin. right. by exists c'.
Qed.

Lemma linear_inv_steps r0 progs cfg :
  steps (init_config r0 progs) cfg → linear_inv r0 progs cfg.
Proof.
  intros H. remember (init_config r0 progs) as cfg0 eqn:Hcfg0.
  induction H as [|cfg1 cfg2 cfg3 i _ IH Hs].
  - subst. apply linear_inv_init.
  - eapply linear_inv_step; [by apply IH|exact Hs].
Qed.

(** ** What a concurrent read sees *)

Lemma Erase_slot_other rfh n r :
  n ≠ GetFrameTreeNodeId rfh →
  frame_tree_node_to_io_thread_client_ (fst (Erase rfh r)) !! n
  = frame_tree_node_to_io_thread_client_ r !! n.
Proof.
  intros Hne. rewrite Erase_ftn_map. cbn.
  case_decide; [by rewrite lookup_delete_ne|by rewrite lookup_insert_ne].
Qed.

Lemma paired_Set_rfh frames rfh client r :
  distinct_frames frames → rfh ∈ frames →
  paired frames r → paired frames (Set_rfh rfh client r).
Proof.
  intros Hdist Hrfh Hr g Hg Hsome.
  destruct (decide (GetFrameTreeNodeId g = GetFrameTreeNodeId rfh)) as [Hn|Hn].
  - rewrite Hn, hosts_of_Set_rfh.
    destruct (decide (GetRenderFrameHostIdPair g = GetRenderFrameHostIdPair rfh))
      as [Hid|Hid].
    + rewrite (Hdist g rfh Hg Hrfh (or_intror Hid)). set_solver.
    + revert Hsome. unfold Get_rfh_id.
      rewrite Set_rfh_rfh_map, lookup_insert_ne by done.
      intros Hsome%(Hr g Hg). rewrite Hn in Hsome. set_solver.
  - assert (GetRenderFrameHostIdPair g ≠ GetRenderFrameHostIdPair rfh) as Hid
      by (intros Hid; apply Hn; by rewrite (Hdist g rfh Hg Hrfh (or_intror Hid))).
    revert Hsome. unfold Get_rfh_id, hosts_of.
    rewrite Set_rfh_rfh_map, lookup_insert_ne by done.
    rewrite Set_rfh_slot_other by done. by apply Hr.
Qed.

Lemma paired_Erase frames rfh r :
  distinct_frames frames → rfh ∈ frames →
  paired frames r → paired frames (fst (Erase rfh r)).
Proof.
  intros Hdist Hrfh Hr g Hg. unfold Get_rfh_id. rewrite Erase_rfh_map.
  destruct (decide (GetRenderFrameHostIdPair g = GetRenderFrameHostIdPair rfh))
    as [Hid|Hid].
  - rewrite Hid, lookup_delete_eq. by intros [? ?].
  - rewrite lookup_delete_ne by done. intros Hsome%(Hr g Hg).
    destruct (decide (GetFrameTreeNodeId g = GetFrameTreeNodeId rfh)) as [Hn|Hn].
    + rewrite Hn, hosts_of_Erase. rewrite Hn in Hsome.
      assert (rfh_ptr g ≠ rfh_ptr rfh) as Hptr
        by (intros Hp; apply Hid; by rewrite (Hdist g rfh Hg Hrfh (or_introl Hp))).
      set_solver.
    + unfold hosts_of in *. by rewrite Erase_slot_other.
Qed.

Lemma paired_run_calls frames done : ∀ r,
  distinct_frames frames →
  (∀ c, c ∈ done → call_by_frame frames c) →
  paired frames r → paired frames (run_calls done r).
Proof.
  induction done as [|c done IH]; intros r Hdist Hcalls Hr; [done|].
  change (run_calls (c :: done) r) with (run_calls done (run_call c r)).
  apply IH; [done|intros; apply Hcalls; set_solver|].
  assert (call_by_frame frames c) as Hc by (apply Hcalls; set_solver).
  destruct c; cbn in Hc |- *; [done|done|done| |].
  - by apply paired_Set_rfh.
  - by apply paired_Erase.
Qed.

Lemma hosts_of_slot n r p :
  p ∈ hosts_of n r → is_Some (Get_frame_tree_node_id n r).
Proof.
  rewrite Get_frame_tree_node_id_lookup. unfold hosts_of.
  destruct (frame_tree_node_to_io_thread_client_ r !! n); [by eexists|set_solver].
Qed.

(** C2. The two map writes of [Set(RenderFrameHost*, ...)] are one
    critical section.  Let the threads of [progs] call the methods of
    the registry from registry [r0], interleaved statement by statement
    in any order, and let a thread be about to read a map (the [find] of
    either [Get]).  Then the reader holds the lock, every other thread
    is outside the critical sections, and none is between the two writes
    of a [Set].  What the read returns is what the lookup returns on the
    registry that the calls [done] leave when each is run as a whole,
    one after the other, from [r0], where [done] is made of the calls
    that have returned: together with the calls the threads have yet to
    return from ([rem], for each thread the call it is in and its calls
    to come) they are the calls of the programs.  So a [Set] by frame is
    seen with both of its writes or with none.  In particular, when the
    callers write by frame only, on frames that differ in pointer and
    identity, from a registry in which no frame has its identity entry
    without its slot, no read sees the frame-identity entry of a frame
    while the frame-tree-node entry of that frame is missing. *)
Theorem reads_see_whole_writes (r0 : RfhToIoThreadClientMap)
    (progs : list (list Call)) (cfg : Config)
    (i : nat) (t : Thread) (ins : Instr) (k : list Instr) :
  steps (init_config r0 progs) cfg →
  threads cfg !! i = Some t →
  current t = ins :: k →
  is_read ins = true →
  map_lock_ cfg = Some i ∧
  (∀ j t', j ≠ i → threads cfg !! j = Some t' → outside t') ∧
  (∀ j t' rfh client, threads cfg !! j = Some t' →
     current t' ≠ [Rfh_assign (GetRenderFrameHostIdPair rfh) client; Release]) ∧
  (∃ (done : list Call) (rem : list (list Call)),
     done ++ concat rem ≡ₚ concat progs ∧
     length rem = length (threads cfg) ∧
     (∀ j t', threads cfg !! j = Some t' →
        ∃ l, rem !! j = Some l ∧ thread_calls r0 done cfg j t' l) ∧
     registry cfg = run_calls done r0 ∧
     read_instr ins (registry cfg) = read_instr ins (run_calls done r0) ∧
     is_Some (read_instr ins (registry cfg))) ∧
  (∀ frames,
     distinct_frames frames →
     (∀ c, c ∈ concat progs → call_by_frame frames c) →
     paired frames r0 →
     ∀ f, f ∈ frames →
       is_Some (Get_rfh_id (GetRenderFrameHostIdPair f) (registry cfg)) →
       rfh_ptr f ∈ hosts_of (GetFrameTreeNodeId f) (registry cfg) ∧
       is_Some (Get_frame_tree_node_id (GetFrameTreeNodeId f) (registry cfg))).
Proof.
  intros Hsteps Ht Hcur Hread.
  destruct (linear_inv_steps _ _ _ Hsteps)
    as (done & rem & Hlen & Hthreads & Hfree & Hheld & Hperm).
  assert (map_lock_ cfg = Some i ∧ registry cfg = run_calls done r0) as [Hl Hreg].
  { destruct (Hthreads i t Ht) as (l & _ & [[Hc _]|(c & _ & [Hc|(Hl & pre & Hb & _ & Hreg)])]).
    - by rewrite Hcur in Hc.
    - rewrite Hcur in Hc. destruct c; cbn in Hc; by simplify_eq.
    - split; [done|]. rewrite Hcur in Hb.
      by rewrite (body_at_read _ _ _ _ Hb Hread) in Hreg. }
  assert (∀ j t', j ≠ i → threads cfg !! j = Some t' → outside t') as Hout.
  { intros j t' Hji Hj.
    destruct (Hthreads j t' Hj) as (l & _ & [[Hc _]|(c & _ & [Hc|(Hl' & _)])]).
    - by left.
    - right. by exists c.
    - rewrite Hl in Hl'. by simplify_eq. }
  split; [done|]. split; [done|]. split; [|split].
  - intros j t' rfh client Hj Hc.
    destruct (decide (j = i)) as [->|Hji].
    + rewrite Ht in Hj. simplify_eq. rewrite Hcur in Hc. by simplify_eq.
    + destruct (Hout j t' Hji Hj) as [Hc'|[c' Hc']]; rewrite Hc in Hc'; [done|].
      by destruct c'.
  - exists done, rem. split; [done|]. split; [done|]. split; [done|].
    split; [done|]. split; [by rewrite Hreg|].
    destruct ins; try done; by eexists.
  - intros frames Hdist Hcalls Hr0 f Hf Hsome. rewrite Hreg in Hsome |- *.
    assert (paired frames (run_calls done r0)) as Hp.
    { apply paired_run_calls; [done| |done].
      intros c Hc. apply Hcalls. rewrite <- Hperm. set_solver. }
    pose proof (Hp f Hf Hsome) as Hhost. split; [done|].
    by eapply hosts_of_slot.
Qed.

Lemma reads_see_whole_writes_witness :
  let f := {| rfh_ptr := 1; GetProcessID := 2; GetRoutingID := 3;
              GetFrameTreeNodeId := 4 |} in
  let d := {| pending_association := false; io_thread_client := Some 5%positive |} in
  let progs := [[Call_Set_rfh f d]; [Call_Get_rfh_id (2, 3)]] in
  ∃ cfg,
    run_schedule [0; 1; 0; 0; 0; 0; 1]%nat (init_config g_instance_ progs) = Some cfg ∧
    run_schedule [0; 1; 0; 0; 1]%nat (init_config g_instance_ progs) = None ∧
    map_lock_ cfg = Some 1%nat ∧
    (∃ done, done ⊆+ [Call_Set_rfh f d; Call_Get_rfh_id (2, 3)] ∧
             registry cfg = run_calls done g_instance_) ∧
    is_Some (Get_frame_tree_node_id 4 (registry cfg)).
Proof.
  intros f d progs. eexists. split; [reflexivity|]. split; [reflexivity|].
  match goal with |- map_lock_ ?c = _ ∧ _ => set (cfg := c) end.
  destruct (reads_see_whole_writes g_instance_ progs cfg 1%nat
              {| current := [Rfh_find (2, 3); Release]; todo := [] |}
              (Rfh_find (2, 3)) [Release])
    as (Hl & _ & _ & (done & rem & Hperm & _ & _ & Hreg & _) & Hpaired).
  - apply (run_schedule_sound [0; 1; 0; 0; 0; 0; 1]%nat). reflexivity.
  - reflexivity.
  - reflexivity.
  - reflexivity.
  - split; [exact Hl|]. split.
    + exists done. split; [|exact Hreg].
      change [Call_Set_rfh f d; Call_Get_rfh_id (2, 3)] with (concat progs).
      rewrite <- Hperm. apply submseteq_inserts_r. reflexivity.
    + refine (proj2 (Hpaired [f] _ _ _ f _ _)).
      * intros g1 g2 Hg1 Hg2 _.
        apply list_elem_of_singleton in Hg1, Hg2. congruence.
      * intros c Hc. apply list_elem_of_In in Hc. cbn in Hc.
        destruct Hc as [<-|[<-|[]]]; cbn; [apply list_elem_of_singleton; reflexivity|exact I].
      * intros g _ [x Hx]. discriminate Hx.
      * apply list_elem_of_singleton. reflexivity.
      * eexists. reflexivity.
Defined.

(** X19. Linearizability.  When every thread has returned from its last
    call, the registry is what the calls of all the programs, each run
    once and as a whole, leave when they run one after the other in
    some order (the order in which they released the lock), from the
    registry the callers started with. *)
Theorem finished_registry_linearizable (r0 : RfhToIoThreadClientMap)
    (progs : list (list Call)) (cfg : Config) :
  steps (init_config r0 progs) cfg →
  Forall finished (threads cfg) →
  ∃ done, done ≡ₚ concat progs ∧ registry cfg = run_calls done r0.
Proof.
  intros (done & rem & Hlen & Hthreads & Hfree & Hheld & Hperm)%linear_inv_steps Hfin.
  exists done. split.
  - rewrite <- Hperm. rewrite (concat_all_nil rem); [by rewrite app_nil_r|].
    intros j l Hj.
    destruct (lookup_lt_is_Some_2 (threads cfg) j) as [t Ht];
      [rewrite <- Hlen; by eapply lookup_lt_Some|].
    destruct (Forall_lookup_1 _ _ _ _ Hfin Ht) as [Hc Htd].
    destruct (Hthreads j t Ht) as (l' & Hl' & HR). rewrite Hj in Hl'. simplify_eq.
    destruct HR as [[_ ->]|(c & _ & [H|(_ & pre & _ & H & _)])]; [done| |done].
    rewrite Hc in H. by destruct c.
  - apply Hfree. destruct (map_lock_ cfg) as [h|] eqn:Hl; [|done].
    destruct (Hheld h eq_refl) as (t & Ht & Hne & _).
    by destruct (Forall_lookup_1 _ _ _ _ Hfin Ht) as [Hc _].
Qed.

Lemma finished_registry_linearizable_witness :
  let f := {| rfh_ptr := 1; GetProcessID := 2; GetRoutingID := 3;
              GetFrameTreeNodeId := 4 |} in
  let d := {| pending_association := false; io_thread_client := Some 5%positive |} in
  let progs := [[Call_Set_rfh f d]; [Call_Erase f]] in
  ∃ cfg done,
    run_schedule [0; 1; 1; 1; 1; 1; 0; 0; 0; 0]%nat (init_config g_instance_ progs)
      = Some cfg ∧
    done ≡ₚ [Call_Set_rfh f d; Call_Erase f] ∧
    registry cfg = run_calls done g_instance_.
Proof.
  intros f d progs. eexists.
  assert (∀ cfg,
            run_schedule [0; 1; 1; 1; 1; 1; 0; 0; 0; 0]%nat
              (init_config g_instance_ progs) = Some cfg →
            Forall finished (threads cfg) →
            ∃ done, done ≡ₚ [Call_Set_rfh f d; Call_Erase f] ∧
                    registry cfg = run_calls done g_instance_) as H.
  { intros cfg Hcfg Hfin.
    exact (finished_registry_linearizable g_instance_ progs cfg
             (run_schedule_sound _ _ _ Hcfg) Hfin). }
  destruct (H _ eq_refl) as (done & Hperm & Hreg).
  - repeat constructor.
  - exists done. split; [reflexivity|]. split; [exact Hperm|exact Hreg].
Defined.

(** * Further properties of the handles *)

(** X20. A handle never holds a collected delegate.  Whatever the
    registry, when either lookup produces a handle with a delegate, that
    delegate is the referent of the record found and is alive in the
    heap the reference was resolved in; and a record with an empty
    reference gives a handle without delegate in every heap. *)
Theorem FromID_delegate_alive (env : JavaHeap) (r : RfhToIoThreadClientMap)
    (this : XWalkContentsIoThreadClient) (dcheck : bool) (obj : jobject) :
  (∀ pid rid,
     FromID env pid rid r = Some (this, dcheck) →
     java_object_ this = Some obj →
     is_alive env obj = true ∧
     ∃ d, Get_rfh_id (pid, rid) r = Some d ∧ io_thread_client d = Some obj ∧
          pending_association_ this = pending_association d) ∧
  (∀ n,
     FromID_frame_tree_node_id env n r = Some (this, dcheck) →
     java_object_ this = Some obj →
     is_alive env obj = true ∧
     ∃ d, Get_frame_tree_node_id n r = Some d ∧ io_thread_client d = Some obj ∧
          pending_association_ this = pending_association d).
Proof.
  assert (∀ d, FromID_found env d = (this, dcheck) → java_object_ this = Some obj →
               is_alive env obj = true ∧ io_thread_client d = Some obj ∧
               pending_association_ this = pending_association d) as Hfound.
  { intros d. unfold FromID_found, weak_get. intros [= <- _]. cbn.
    destruct (io_thread_client d) as [o|]; [|done].
    destruct (is_alive env o) eqn:Ho; [|done]. by intros [= <-]. }
  split.
  - intros pid rid. unfold FromID.
    destruct (Get_rfh_id (pid, rid) r) as [d|]; [|done].
    intros Hd Hobj. apply (inj Some) in Hd.
    destruct (Hfound d Hd Hobj) as (? & ? & ?).
    split; [done|]. by exists d.
  - intros n. unfold FromID_frame_tree_node_id.
    destruct (Get_frame_tree_node_id n r) as [d|]; [|done].
    intros Hd Hobj. apply (inj Some) in Hd.
    destruct (Hfound d Hd Hobj) as (? & ? & ?).
    split; [done|]. by exists d.
Qed.

Lemma FromID_delegate_alive_witness :
  let f := {| rfh_ptr := 1; GetProcessID := 2; GetRoutingID := 3;
              GetFrameTreeNodeId := 4 |} in
  let d := {| pending_association := false; io_thread_client := Some 5%positive |} in
  let env := {| is_alive := λ o, bool_decide (o = 5%positive) |} in
  FromID env 2 3 (Set_rfh f d g_instance_) =
    Some ({| pending_association_ := false; java_object_ := Some 5%positive |}, true) ∧
  is_alive env 5%positive = true.
Proof.
  intros f d env. split; [reflexivity|].
  apply (proj1 (FromID_delegate_alive env (Set_rfh f d g_instance_)
                  {| pending_association_ := false; java_object_ := Some 5%positive |}
                  true 5%positive) 2 3).
  - reflexivity.
  - reflexivity.
Defined.

(** X21. An association made before the container has a main frame
    writes nothing; it takes effect when a frame is created under the
    observer it allocated: the lookup by the identity of that frame and
    the lookup by its frame-tree-node id then produce a handle that is
    not pending and holds the associated delegate, if it is alive. *)
Theorem Associate_without_main_frame (env : JavaHeap) (wc : WebContents)
    (D : jobject) (r : RfhToIoThreadClientMap) (F : RenderFrameHost) :
  GetMainFrame wc = None →
  is_alive env D = true →
  let observer := fst (fst (Associate wc (Some D) r)) in
  let this := {| pending_association_ := false; java_object_ := Some D |} in
  snd (fst (Associate wc (Some D) r)) = r ∧
  FromID env (GetProcessID F) (GetRoutingID F) (RenderFrameCreated observer F r)
    = Some (this, true) ∧
  FromID_frame_tree_node_id env (GetFrameTreeNodeId F) (RenderFrameCreated observer F r)
    = Some (this, true).
Proof.
  intros Hmain Halive. unfold Associate, ClientMapEntryUpdater_new.
  rewrite Hmain. cbn -[FromID FromID_frame_tree_node_id].
  split; [done|].
  unfold FromID, FromID_frame_tree_node_id, RenderFrameCreated.
  fold (GetRenderFrameHostIdPair F).
  rewrite Get_rfh_id_Set_rfh, Get_frame_tree_node_id_Set_rfh.
  unfold FromID_found. cbn. by rewrite Halive.
Qed.

Lemma Associate_without_main_frame_witness :
  let F := {| rfh_ptr := 1; GetProcessID := 2; GetRoutingID := 3;
              GetFrameTreeNodeId := 4 |} in
  let wc := {| GetMainFrame := None |} in
  let env := {| is_alive := λ _, true |} in
  snd (fst (Associate wc (Some 6%positive) g_instance_)) = g_instance_ ∧
  FromID env 2 3
    (RenderFrameCreated (fst (fst (Associate wc (Some 6%positive) g_instance_)))
       F g_instance_) =
    Some ({| pending_association_ := false; java_object_ := Some 6%positive |}, true).
Proof.
  intros F wc env.
  destruct (Associate_without_main_frame env wc 6%positive g_instance_ F)
    as (H1 & H2 & _).
  - reflexivity.
  - reflexivity.
  - split; [exact H1|exact H2].
Defined.
